(** * RediScan: the list navigator, the key discovery scan and the value
      formatter of the Redis list inspector, embedded from the Go source.

    The development follows the handler code of the preload-capable
    application ([lindexHandler], [getAvailableLists], [prettyPrintJSON])
    and, in module [Legacy], the older variant kept in [main.go].

    External collaborators are modelled by what the code observes of them:
    - the Redis client by the replies it hands back (a [Store] of replies
      for the navigator, a script of [ScanReply] rounds for the scan loop);
    - [encoding/json] by an interface ([EncodingJSON]) with the
      (value, error) shape of [json.Unmarshal] and [json.MarshalIndent];
    - [strconv.ParseInt] by an executable model of its base-10, 64-bit
      behaviour. *)

From Stdlib Require Import ZArith List String Ascii Bool Lia.
Import ListNotations.
Local Open Scope string_scope.
Local Open Scope Z_scope.

(** ** Go's (value, error) results *)

Definition error := string.

Inductive result (A : Type) : Type :=
| Ok (a : A)
| Err (e : error).
Arguments Ok {A} a.
Arguments Err {A} e.

(** ** Machine integers *)

Definition maxInt64 : Z := 2 ^ 63 - 1.
Definition minInt64 : Z := - 2 ^ 63.
Definition maxUint64 : Z := 2 ^ 64 - 1.

(** Two's-complement wrap-around of an [int64] result. *)
Definition wrap64 (z : Z) : Z := (z + 2 ^ 63) mod 2 ^ 64 - 2 ^ 63.

(** ** strconv *)

Module strconv.

(** Value of a base-10 digit byte; [None] is Go's syntax error. *)
Definition digit_of (c : ascii) : option Z :=
  let n := Z.of_nat (nat_of_ascii c) in
  if (48 <=? n) && (n <=? 57) then Some (n - 48) else None.

(** [ParseUint(s, 10, 64)] after its empty-string test: the digit loop
    with the two overflow checks of the library ([n >= cutoff] before the
    multiplication, [n1 > maxVal] after the addition). *)
Definition cutoff : Z := maxUint64 / 10 + 1.

Fixpoint parse_digits (s : string) (n : Z) : option Z :=
  match s with
  | EmptyString => Some n
  | String c s' =>
      match digit_of c with
      | None => None
      | Some d =>
          if cutoff <=? n then None
          else
            let n1 := n * 10 + d in
            if maxUint64 <? n1 then None else parse_digits s' n1
      end
  end.

Definition ParseUint (s : string) : option Z :=
  match s with
  | EmptyString => None
  | _ => parse_digits s 0
  end.

(** [ParseInt(s, 10, 64)]: [None] stands for any non-nil error (syntax or
    range); the handler only tests [err != nil]. *)
Definition ParseInt (s : string) : option Z :=
  match s with
  | EmptyString => None
  | String c rest =>
      let '(neg, body) :=
        if Ascii.eqb c "+" then (false, rest)
        else if Ascii.eqb c "-" then (true, rest)
        else (false, s) in
      match ParseUint body with
      | None => None
      | Some un =>
          let cutoff := 2 ^ 63 in
          if negb neg && (cutoff <=? un) then None
          else if neg && (cutoff <? un) then None
          else Some (if neg then - un else un)
      end
  end.

(** Decimal rendering, as [%d] and [FormatInt(i, 10)] produce it. *)
Definition digit_char (d : Z) : ascii := ascii_of_nat (Z.to_nat (48 + d)).

Fixpoint format_digits (fuel : nat) (n : Z) (acc : string) : string :=
  let acc' := String (digit_char (n mod 10)) acc in
  match fuel with
  | O => acc'
  | S fuel' => if n <? 10 then acc' else format_digits fuel' (n / 10) acc'
  end.

Definition FormatUint (n : Z) : string :=
  format_digits (Z.to_nat (Z.log2 n)) n "".

Definition FormatInt (i : Z) : string :=
  if i <? 0 then String "-" (FormatUint (- i)) else FormatUint i.

(** The integer a decimal numeral denotes, with no bound on its size:
    an optional sign followed by at least one digit. *)
Fixpoint digits_value (s : string) (n : Z) : option Z :=
  match s with
  | EmptyString => Some n
  | String c s' =>
      match digit_of c with
      | None => None
      | Some d => digits_value s' (n * 10 + d)
      end
  end.

Definition numeral_value (s : string) : option Z :=
  match s with
  | EmptyString => None
  | String c rest =>
      let '(neg, body) :=
        if Ascii.eqb c "+" then (false, rest)
        else if Ascii.eqb c "-" then (true, rest)
        else (false, s) in
      match body with
      | EmptyString => None
      | _ =>
          match digits_value body 0 with
          | None => None
          | Some un => Some (if neg then - un else un)
          end
      end
  end.

End strconv.

(** ** encoding/json, as the formatter sees it

    [any] is the dynamic value [json.Unmarshal] stores into an
    [interface{}]; both calls return Go's (value, error) pair. *)

Class EncodingJSON : Type := {
  any : Type;
  Unmarshal : string -> result any;
  MarshalIndent : any -> string -> string -> result string
}.

(** ** The Redis client, as the navigator sees it

    Each field is the [.Result()] of the command of that name.  The four
    replies are independent of one another: the list may change between the
    length read and the element read. *)

Record Store : Type := {
  Type_ : string -> result string;
  LLen : string -> result Z;
  LRange : string -> Z -> Z -> result (list string);
  LIndex : string -> Z -> result string
}.

(** Process-wide thresholds ([maxLists], [maxPreloadSize]). *)
Record Config : Type := {
  maxLists : Z;
  maxPreloadSize : Z
}.

Definition defaultConfig : Config := {| maxLists := 10; maxPreloadSize := 1000 |}.

(** ** HTTP request and responses *)

(** [r.URL.Query()]: the decoded query pairs, in order. *)
Record Request : Type := {
  Path : string;
  Query : list (string * string)
}.

(** [url.Values.Get]: the first value of the name, or the empty string. *)
Fixpoint Get (q : list (string * string)) (name : string) : string :=
  match q with
  | [] => ""
  | (k, v) :: q' => if String.eqb k name then v else Get q' name
  end.

(** What the handler renders; the HTML templates are not modelled. *)
Inductive Response : Type :=
| NotFoundPage (message : string)
| ErrorPage (message : string)
| ResultWithPreload (key : string) (index llen : Z) (allValues : list string)
| ResultWithoutPreload (key : string) (index llen : Z) (value : string).

Definition is_not_found (resp : Response) : bool :=
  match resp with NotFoundPage _ => true | _ => false end.

(** ** Steps of a navigation request

    Store round trips, and the two pure validation blocks of the handler
    (index resolution, bounds check), in the order they are executed. *)

Inductive Step : Type :=
| CallType (key : string)
| CallLLen (key : string)
| ResolveIndex (indexStr : string)
| CheckBounds (index llen : Z)
| CallLRange (key : string) (start stop : Z)
| CallLIndex (key : string) (index : Z).

Inductive StepKind : Type :=
| KType | KLength | KIndexResolve | KBounds | KFetch.

Definition kind_of (s : Step) : StepKind :=
  match s with
  | CallType _ => KType
  | CallLLen _ => KLength
  | ResolveIndex _ => KIndexResolve
  | CheckBounds _ _ => KBounds
  | CallLRange _ _ _ => KFetch
  | CallLIndex _ _ => KFetch
  end.

Definition is_fetch (s : Step) : bool :=
  match s with
  | CallLRange _ _ _ | CallLIndex _ _ => true
  | _ => false
  end.

(** A handler body: the steps executed so far, and either a value to go on
    with or the response after which the handler has returned. *)
Definition Handler (A : Type) : Type := (list Step * (A + Response))%type.

Definition ret {A} (a : A) : Handler A := ([], inl a).

Definition bind {A B} (m : Handler A) (k : A -> Handler B) : Handler B :=
  match m with
  | (t, inl a) => let '(t', r) := k a in ((t ++ t')%list, r)
  | (t, inr resp) => (t, inr resp)
  end.

Definition mark (s : Step) : Handler unit := ([s], inl tt).

Definition call {A} (s : Step) (reply : result A) : Handler (result A) :=
  ([s], inl reply).

Definition finish {A} (resp : Response) : Handler A := ([], inr resp).

Definition run (m : Handler Empty_set) : list Step * Response :=
  match m with
  | (t, inl e) => match e with end
  | (t, inr resp) => (t, resp)
  end.

Declare Scope handler_scope.
Delimit Scope handler_scope with handler.
Notation "x <- m ;; k" := (bind m (fun x => k))
  (at level 100, m at next level, right associativity) : handler_scope.
Notation "m ;;; k" := (bind m (fun _ => k))
  (at level 100, right associativity) : handler_scope.

Definition renderNotFound {A} (message : string) : Handler A :=
  finish (NotFoundPage message).
Definition renderError {A} (message : string) : Handler A :=
  finish (ErrorPage message).
Definition renderResultWithPreload {A}
    (key : string) (index llen : Z) (allValues : list string) : Handler A :=
  finish (ResultWithPreload key index llen allValues).
Definition renderResultWithoutPreload {A}
    (key : string) (index llen : Z) (value : string) : Handler A :=
  finish (ResultWithoutPreload key index llen value).

(** The messages of the handler, as [fmt.Sprintf] builds them. *)
Definition msgDoesNotExist (key : string) : string :=
  "Key '" ++ key ++ "' does not exist".
Definition msgNotAList (key keyType : string) : string :=
  "Key '" ++ key ++ "' is not a list (type: " ++ keyType ++ ")".
Definition msgEmpty (key : string) : string :=
  "List '" ++ key ++ "' is empty".
Definition msgOutOfBounds (index llen : Z) : string :=
  "Index " ++ strconv.FormatInt index ++ " out of bounds (list length: "
  ++ strconv.FormatInt llen ++ ")".

Section Navigator.

Context {json : EncodingJSON}.

(** [prettyPrintJSON] *)
Definition prettyPrintJSON (value : string) : string :=
  match Unmarshal value with
  | Err _ => value
  | Ok jsonData =>
      match MarshalIndent jsonData "" "  " with
      | Err _ => value
      | Ok prettyJSON => prettyJSON
      end
  end.

(** The index block of the handler: default to the tail when no index was
    supplied, parse it otherwise. *)
Definition resolveIndex (indexStr : string) (llen : Z) : Handler Z :=
  (mark (ResolveIndex indexStr) ;;;
   if String.eqb indexStr "" then ret (wrap64 (llen - 1))
   else
     match strconv.ParseInt indexStr with
     | None => renderNotFound "Invalid 'index' parameter"
     | Some index => ret index
     end)%handler.

(** [lindexHandler], preload-capable variant. *)
Definition lindexHandler (cfg : Config) (redisClient : Store) (r : Request)
  : list Step * Response :=
  let key := Get (Query r) "key" in
  let indexStr := Get (Query r) "index" in
  run (
    if String.eqb key "" then renderNotFound "Missing 'key' parameter"
    else
      keyType <- call (CallType key) (Type_ redisClient key) ;;
      match keyType with
      | Err err => renderError ("Error checking key: " ++ err)
      | Ok keyType =>
          if String.eqb keyType "none" then renderNotFound (msgDoesNotExist key)
          else if negb (String.eqb keyType "list")
          then renderNotFound (msgNotAList key keyType)
          else
            llen <- call (CallLLen key) (LLen redisClient key) ;;
            match llen with
            | Err err => renderError ("Error getting list length: " ++ err)
            | Ok llen =>
                if llen =? 0 then renderNotFound (msgEmpty key)
                else
                  index <- resolveIndex indexStr llen ;;
                  mark (CheckBounds index llen) ;;;
                  if (index <? 0) || (index >=? llen)
                  then renderNotFound (msgOutOfBounds index llen)
                  else if llen <=? maxPreloadSize cfg
                  then
                    allValues <- call (CallLRange key 0 (-1))
                                      (LRange redisClient key 0 (-1)) ;;
                    match allValues with
                    | Err err =>
                        renderError ("Error getting list elements: " ++ err)
                    | Ok allValues =>
                        renderResultWithPreload key index llen
                          (map prettyPrintJSON allValues)
                    end
                  else
                    value <- call (CallLIndex key index)
                                  (LIndex redisClient key index) ;;
                    match value with
                    | Err err => renderError ("Error getting element: " ++ err)
                    | Ok value =>
                        renderResultWithoutPreload key index llen
                          (prettyPrintJSON value)
                    end
            end
      end)%handler.

End Navigator.

(** ** The Redis client, as the discovery scan sees it

    One [ScanReply] is everything the store answers during one iteration of
    the scan loop: the [SCAN] reply itself and, for a batch of keys, the two
    pipelines the loop runs over it.  A script is the sequence of these
    rounds, each the answer to the [SCAN] issued with the cursor of the
    round before; when the script runs out the loop would issue a further
    [SCAN].  The results of a pipeline and the error of its [Exec] are kept
    independent, which covers every client behaviour. *)

(** A scanned key with the results of its pipelined commands:
    [typeCmds[i].Result()] and, when the key enters [listKeys],
    [llenCmds[j].Result()]. *)
Record KeyReply : Type := {
  keyName : string;
  typeResult : result string;
  llenResult : result Z
}.

Record ScanBatch : Type := {
  keys : list KeyReply;
  cursor : Z;
  typeExecErr : option error;
  llenExecErr : option error
}.

Inductive ScanReply : Type :=
| ScanErr (err : error)
| ScanOk (batch : ScanBatch).

(** [ListInfo] *)
Record ListInfo : Type := {
  Name : string;
  Size : Z
}.

Definition len {A} (l : list A) : Z := Z.of_nat (List.length l).

Definition isListType (k : KeyReply) : bool :=
  match typeResult k with
  | Err _ => false
  | Ok keyType => String.eqb keyType "list"
  end.

(** First pass over a batch: the keys whose type command answered "list". *)
Definition listKeysOf (ks : list KeyReply) : list KeyReply :=
  filter isListType ks.

(** Second pass: append the sized lists, returning as soon as [maxLists]
    entries are held.  The flag tells whether the function returned from
    inside the loop. *)
Fixpoint appendSizes (maxLists : Z) (listKeys : list KeyReply)
    (lists : list ListInfo) : list ListInfo * bool :=
  match listKeys with
  | [] => (lists, false)
  | k :: rest =>
      match llenResult k with
      | Err _ => appendSizes maxLists rest lists
      | Ok size =>
          let lists := (lists ++ [{| Name := keyName k; Size := size |}])%list in
          if len lists >=? maxLists then (lists, true)
          else appendSizes maxLists rest lists
      end
  end.

(** The body of one loop iteration after a successful [SCAN]. *)
Definition processBatch (maxLists : Z) (b : ScanBatch)
    (lists : list ListInfo) : list ListInfo * bool :=
  if 0 <? len (keys b) then
    match typeExecErr b with
    | Some _ => (lists, false)
    | None =>
        let listKeys := listKeysOf (keys b) in
        if 0 <? len listKeys then
          match llenExecErr b with
          | Some _ => (lists, false)
          | None => appendSizes maxLists listKeys lists
          end
        else (lists, false)
    end
  else (lists, false).

(** The scan loop.  [None]: the script ended while the loop was still
    running. *)
Fixpoint scanLoop (maxLists : Z) (script : list ScanReply)
    (lists : list ListInfo) : option (list ListInfo * option error) :=
  match script with
  | [] => None
  | ScanErr err :: _ => Some ([], Some err)
  | ScanOk b :: rest =>
      let '(lists, returned) := processBatch maxLists b lists in
      if returned then Some (lists, None)
      else if cursor b =? 0 then Some (lists, None)
      else scanLoop maxLists rest lists
  end.

(** [getAvailableLists] *)
Definition getAvailableLists (cfg : Config) (script : list ScanReply)
  : option (list ListInfo * option error) :=
  scanLoop (maxLists cfg) script [].

(** [indexHandler]: an error of the scan is logged and the page is rendered
    with whatever list came back. *)
Inductive IndexResponse : Type :=
| HttpNotFound
| IndexPage (AvailableLists : list ListInfo).

Definition indexHandler (cfg : Config) (script : list ScanReply) (r : Request)
  : option IndexResponse :=
  if negb (String.eqb (Path r) "/") then Some HttpNotFound
  else
    match getAvailableLists cfg script with
    | None => None
    | Some (availableLists, _) => Some (IndexPage availableLists)
    end.

(** The accumulation the loop would build with no cap on its size: every
    sized list of every batch, up to the first failed [SCAN], the first zero
    cursor or the end of the script. *)
Definition sizedLists (ks : list KeyReply) : list ListInfo :=
  flat_map (fun k =>
              match llenResult k with
              | Err _ => []
              | Ok size => [{| Name := keyName k; Size := size |}]
              end) ks.

Definition batchLists (b : ScanBatch) : list ListInfo :=
  match typeExecErr b, llenExecErr b with
  | None, None => sizedLists (listKeysOf (keys b))
  | _, _ => []
  end.

Fixpoint uncappedLists (script : list ScanReply) : list ListInfo :=
  match script with
  | [] => []
  | ScanErr _ :: _ => []
  | ScanOk b :: rest =>
      (batchLists b ++ (if cursor b =? 0 then [] else uncappedLists rest))%list
  end.

(** A key of the script that the batched type check observed as a list. *)
Definition observedList (script : list ScanReply) (name : string) : Prop :=
  exists b k,
    In (ScanOk b) script /\ In k (keys b) /\ typeExecErr b = None /\
    keyName k = name /\ typeResult k = Ok "list".

(** A script prefix that keeps the loop running: every [SCAN] succeeds with
    a non-zero cursor. *)
Fixpoint scanContinues (script : list ScanReply) : bool :=
  match script with
  | [] => true
  | ScanErr _ :: _ => false
  | ScanOk b :: rest => negb (cursor b =? 0) && scanContinues rest
  end.

(** ** The older application variant ([main.go]) *)

Module Legacy.

Section Navigator.

Context {json : EncodingJSON}.

(** [lindexHandler]: the index is parsed before the store is asked
    anything, and the element is always fetched singly.  The page of
    [renderResult] is recorded by the data handed to it (key, index,
    length, value), under the constructor of the page without preload. *)
Definition lindexHandler (redisClient : Store) (r : Request)
  : list Step * Response :=
  let key := Get (Query r) "key" in
  let indexStr := Get (Query r) "index" in
  run (
    if String.eqb key "" then renderNotFound "Missing 'key' parameter"
    else
      index <- (mark (ResolveIndex indexStr) ;;;
                match strconv.ParseInt indexStr with
                | None => renderNotFound "Invalid 'index' parameter"
                | Some index => ret index
                end) ;;
      keyType <- call (CallType key) (Type_ redisClient key) ;;
      match keyType with
      | Err err => renderError ("Error checking key: " ++ err)
      | Ok keyType =>
          if String.eqb keyType "none"
          then renderNotFound (msgDoesNotExist key)
          else if negb (String.eqb keyType "list")
          then renderNotFound (msgNotAList key keyType)
          else
            llen <- call (CallLLen key) (LLen redisClient key) ;;
            match llen with
            | Err err => renderError ("Error getting list length: " ++ err)
            | Ok llen =>
                if llen =? 0 then renderNotFound (msgEmpty key)
                else
                  mark (CheckBounds index llen) ;;;
                  if (index <? 0) || (index >=? llen)
                  then renderNotFound (msgOutOfBounds index llen)
                  else
                    value <- call (CallLIndex key index)
                                  (LIndex redisClient key index) ;;
                    match value with
                    | Err err =>
                        renderError ("Error getting element: " ++ err)
                    | Ok value =>
                        renderResultWithoutPreload key index llen
                          (prettyPrintJSON value)
                    end
            end
      end)%handler.

End Navigator.

(** The single pass of the older scan: the type results are read even
    when the pipeline reported an error, and names alone are kept. *)
Fixpoint appendLists (maxLists : Z) (ks : list KeyReply)
    (lists : list string) : list string * bool :=
  match ks with
  | [] => (lists, false)
  | k :: rest =>
      match typeResult k with
      | Err _ => appendLists maxLists rest lists
      | Ok keyType =>
          if String.eqb keyType "list" then
            let lists := (lists ++ [keyName k])%list in
            if len lists >=? maxLists then (lists, true)
            else appendLists maxLists rest lists
          else appendLists maxLists rest lists
      end
  end.

Fixpoint scanLoop (maxLists : Z) (script : list ScanReply)
    (lists : list string) : option (list string * option error) :=
  match script with
  | [] => None
  | ScanErr err :: _ => Some ([], Some err)
  | ScanOk b :: rest =>
      let '(lists, returned) :=
        if 0 <? len (keys b) then appendLists maxLists (keys b) lists
        else (lists, false) in
      if returned then Some (lists, None)
      else if cursor b =? 0 then Some (lists, None)
      else scanLoop maxLists rest lists
  end.

(** [getAvailableLists] *)
Definition getAvailableLists (maxLists : Z) (script : list ScanReply)
  : option (list string * option error) :=
  scanLoop maxLists script [].

End Legacy.

(** ** A small instance of the JSON interface

    The literal fragment of JSON: [null], [true] and [false] between
    optional white space, printed back in canonical form. *)

Module LiteralJSON.

Inductive literal : Type := LNull | LBool (b : bool).

Definition is_space (c : ascii) : bool :=
  let n := nat_of_ascii c in
  (Nat.eqb n 32 || Nat.eqb n 9 || Nat.eqb n 10 || Nat.eqb n 13)%bool.

Fixpoint skip_space (s : string) : string :=
  match s with
  | EmptyString => EmptyString
  | String c s' => if is_space c then skip_space s' else s
  end.

Definition token (word s : string) : bool :=
  String.prefix word s &&
  String.eqb
    (skip_space (substring (String.length word)
                   (String.length s - String.length word) s)) "".

Definition unmarshal (s : string) : result literal :=
  let s := skip_space s in
  if token "null" s then Ok LNull
  else if token "true" s then Ok (LBool true)
  else if token "false" s then Ok (LBool false)
  else Err "invalid character looking for beginning of value".

Definition marshalIndent (v : literal) (prefix indent : string)
  : result string :=
  match v with
  | LNull => Ok "null"
  | LBool true => Ok "true"
  | LBool false => Ok "false"
  end.

#[export] Instance codec : EncodingJSON :=
  {| any := literal; Unmarshal := unmarshal; MarshalIndent := marshalIndent |}.

End LiteralJSON.

(** ** Vocabulary for the statements about the navigator *)

(** The index the handler goes on with, when it does. *)
Definition resolved (indexStr : string) (llen : Z) : option Z :=
  if String.eqb indexStr "" then Some (wrap64 (llen - 1))
  else strconv.ParseInt indexStr.

(** The steps of a request that passes every validation. *)
Definition validationSteps (key indexStr : string) (index llen : Z)
  : list Step :=
  [CallType key; CallLLen key; ResolveIndex indexStr; CheckBounds index llen].

(** The same for the older handler. *)
Definition legacySteps (key indexStr : string) (index llen : Z) : list Step :=
  [ResolveIndex indexStr; CallType key; CallLLen key; CheckBounds index llen].

(** The order in which the specification lists the steps. *)
Definition specifiedOrder : list StepKind :=
  [KType; KLength; KIndexResolve; KBounds; KFetch].

(** The order of the older handler: the index is parsed first. *)
Definition legacyOrder : list StepKind :=
  [KIndexResolve; KType; KLength; KBounds; KFetch].

(** Which fetch strategy a run used. *)
Definition issuesLRange (trace : list Step) : bool :=
  existsb (fun s => match s with CallLRange _ _ _ => true | _ => false end) trace.
Definition issuesLIndex (trace : list Step) : bool :=
  existsb (fun s => match s with CallLIndex _ _ => true | _ => false end) trace.


(** ** Vocabulary for the statements about the formatter *)

(** The contract of [encoding/json] the formatter relies on: the indented
    encoding of a decoded value decodes to that value again. *)
Definition roundTrips (json : EncodingJSON) : Prop :=
  forall s v pretty,
    Unmarshal s = Ok v ->
    MarshalIndent v "" "  " = Ok pretty ->
    Unmarshal pretty = Ok v.

(** ** Vocabulary for the statements about the scan *)

(** A script on which the loop is bound to end: some [SCAN] fails or
    returns the zero cursor. *)
Definition scriptEnds (script : list ScanReply) : bool :=
  existsb (fun reply =>
             match reply with
             | ScanErr _ => true
             | ScanOk b => cursor b =? 0
             end) script.

(** The uncapped accumulation of the older scan: the names of the keys
    whose type command answered "list", whatever the pipeline reported. *)
Definition legacyBatchLists (b : ScanBatch) : list string :=
  map keyName (listKeysOf (keys b)).

Fixpoint legacyUncappedLists (script : list ScanReply) : list string :=
  match script with
  | [] => []
  | ScanErr _ :: _ => []
  | ScanOk b :: rest =>
      (legacyBatchLists b
         ++ (if cursor b =? 0 then [] else legacyUncappedLists rest))%list
  end.

Definition legacyObservedList (script : list ScanReply) (name : string) : Prop :=
  exists b k,
    In (ScanOk b) script /\ In k (keys b) /\
    keyName k = name /\ typeResult k = Ok "list".

(** A script the loop reads to its end: no [SCAN] fails and the zero
    cursor comes with the last reply, not before. *)
Fixpoint completes (script : list ScanReply) : bool :=
  match script with
  | [] => false
  | ScanErr _ :: _ => false
  | ScanOk b :: rest =>
      match rest with
      | [] => cursor b =? 0
      | _ => negb (cursor b =? 0) && completes rest
      end
  end.

(** A key of the script as the two pipelines of its round observed it. *)
Definition sizedList (script : list ScanReply) (li : ListInfo) : Prop :=
  exists b k,
    In (ScanOk b) script /\ In k (keys b) /\
    typeExecErr b = None /\ llenExecErr b = None /\
    keyName k = Name li /\ typeResult k = Ok "list" /\
    llenResult k = Ok (Size li).

(** One good batch holding the list ["mylist"], then a failed [SCAN]. *)
Definition failingScript : list ScanReply :=
  [ScanOk {| keys := [{| keyName := "mylist";
                         typeResult := Ok "list";
                         llenResult := Ok 3 |}];
             cursor := 17;
             typeExecErr := None;
             llenExecErr := None |};
   ScanErr "connection reset by peer"].

(** ** Sample stores and requests *)

(** A store holding one list, answering as Redis does: [LRANGE] and
    [LINDEX] count negative positions from the tail, [LINDEX] out of range
    is the nil reply (an error for the client). *)
Definition normalize (length i : Z) : Z :=
  if i <? 0 then Z.max 0 (length + i) else i.

Definition lrange (elems : list string) (start stop : Z) : list string :=
  let start := normalize (len elems) start in
  let stop := Z.min (len elems - 1) (if stop <? 0 then len elems + stop else stop) in
  if stop <? start then []
  else firstn (Z.to_nat (stop - start + 1)) (skipn (Z.to_nat start) elems).

Definition lindex (elems : list string) (index : Z) : result string :=
  let i := if index <? 0 then len elems + index else index in
  if i <? 0 then Err "redis: nil"
  else
    match nth_error elems (Z.to_nat i) with
    | Some v => Ok v
    | None => Err "redis: nil"
    end.

Definition singleListStore (name : string) (elems : list string) : Store :=
  {| Type_ := fun key =>
       if String.eqb key name && negb (len elems =? 0)
       then Ok "list" else Ok "none";
     LLen := fun key => if String.eqb key name then Ok (len elems) else Ok 0;
     LRange := fun key start stop =>
       if String.eqb key name then Ok (lrange elems start stop) else Ok [];
     LIndex := fun key index =>
       if String.eqb key name then lindex elems index else Err "redis: nil" |}.

Definition mylistStore : Store := singleListStore "mylist" ["c"; "b"; "a"].

Definition lindexRequest (key indexStr : string) : Request :=
  {| Path := "/lindex"; Query := [("key", key); ("index", indexStr)] |}.

Definition lindexRequestNoIndex (key : string) : Request :=
  {| Path := "/lindex"; Query := [("key", key)] |}.

(** A keyspace of five lists and one string, scanned in two rounds. *)
Definition listKey (name : string) (size : Z) : KeyReply :=
  {| keyName := name; typeResult := Ok "list"; llenResult := Ok size |}.

Definition fiveListsScript : list ScanReply :=
  [ScanOk {| keys := [listKey "a" 1; listKey "b" 2;
                      {| keyName := "s"; typeResult := Ok "string";
                         llenResult := Err "WRONGTYPE" |};
                      listKey "c" 3];
             cursor := 96;
             typeExecErr := None;
             llenExecErr := None |};
   ScanOk {| keys := [listKey "d" 4; listKey "e" 5];
             cursor := 0;
             typeExecErr := None;
             llenExecErr := None |}].

(** A round whose type pipeline failed, between the two rounds of
    [fiveListsScript]. *)
Definition failedBatch : ScanBatch :=
  {| keys := [listKey "x" 7; listKey "y" 8];
     cursor := 48;
     typeExecErr := Some "ERR pipeline";
     llenExecErr := None |}.

(** An environment that sets [MAX_LISTS] to 2 and nothing else. *)
Definition sampleEnv (name : string) : string :=
  if String.eqb name "MAX_LISTS" then "2" else "".

Definition twoListsConfig : Config := {| maxLists := 2; maxPreloadSize := 1000 |}.

Definition indexRequest : Request := {| Path := "/"; Query := [] |}.

(** ** Start-up configuration ([main])

    [Getenv] is [os.Getenv]: the value of a variable, or the empty string
    when it is not set.  [strconv.Atoi] is [ParseInt(s, 10, 0)] with an
    [int] of 64 bits.  Only the thresholds are modelled; the client options
    and the port are passed through to the libraries. *)

Definition Atoi (s : string) : option Z := strconv.ParseInt s.

(** The thresholds after [main] has read the environment: [MAX_LISTS]
    replaces the default when it parses to a positive [int]; nothing assigns
    [maxPreloadSize]. *)
Definition configure (Getenv : string -> string) : Config :=
  let maxListsStr := Getenv "MAX_LISTS" in
  {| maxLists :=
       if negb (String.eqb maxListsStr "") then
         match Atoi maxListsStr with
         | Some ml => if 0 <? ml then ml else maxLists defaultConfig
         | None => maxLists defaultConfig
         end
       else maxLists defaultConfig;
     maxPreloadSize := maxPreloadSize defaultConfig |}.

(** ** What a response puts on the wire and on the page *)

(** [renderNotFound] writes 404, [renderError] 500; the result pages write
    no header. *)
Definition statusCode (resp : Response) : Z :=
  match resp with
  | NotFoundPage _ => 404
  | ErrorPage _ => 500
  | ResultWithPreload _ _ _ _ => 200
  | ResultWithoutPreload _ _ _ _ => 200
  end.

(** [MaxIndex: llen - 1] of the result pages. *)
Definition MaxIndex (llen : Z) : Z := wrap64 (llen - 1).

(** The text inside the value box: [{{index .AllValues .Index}}] on the
    preloaded page ([None]: the template call fails), [{{.Value}}] on the
    other. *)
Definition displayedValue (resp : Response) : option string :=
  match resp with
  | ResultWithPreload _ index _ allValues =>
      if index <? 0 then None else nth_error allValues (Z.to_nat index)
  | ResultWithoutPreload _ _ _ value => Some value
  | _ => None
  end.

(** Whether a step is a store call that came back with an error. *)
Definition failed {A} (r : result A) : bool :=
  match r with Ok _ => false | Err _ => true end.

Definition callFailed (store : Store) (s : Step) : bool :=
  match s with
  | CallType key => failed (Type_ store key)
  | CallLLen key => failed (LLen store key)
  | CallLRange key start stop => failed (LRange store key start stop)
  | CallLIndex key index => failed (LIndex store key index)
  | ResolveIndex _ => false
  | CheckBounds _ _ => false
  end.

(** The error a failed store call came back with. *)
Definition replyError {A} (r : result A) : option error :=
  match r with Ok _ => None | Err err => Some err end.

Definition callError (store : Store) (s : Step) : option error :=
  match s with
  | CallType key => replyError (Type_ store key)
  | CallLLen key => replyError (LLen store key)
  | CallLRange key start stop => replyError (LRange store key start stop)
  | CallLIndex key index => replyError (LIndex store key index)
  | ResolveIndex _ => None
  | CheckBounds _ _ => None
  end.

(** The index a result page carries. *)
Definition responseIndex (resp : Response) : option Z :=
  match resp with
  | ResultWithPreload _ index _ _ => Some index
  | ResultWithoutPreload _ index _ _ => Some index
  | _ => None
  end.

Definition isStoreCall (s : Step) : bool :=
  match s with
  | ResolveIndex _ | CheckBounds _ _ => false
  | _ => true
  end.

(** How a run reports store failures: every call before the last one
    succeeded, the status is 500 exactly when a call failed, and the error
    page quotes the error of that last call. *)
Definition reportsStoreFailure (store : Store) (run : list Step * Response)
  : Prop :=
  forallb (fun s => negb (callFailed store s)) (removelast (fst run)) = true /\
  (statusCode (snd run) = 500 <-> existsb (callFailed store) (fst run) = true) /\
  (forall message, snd run = ErrorPage message ->
     exists label err,
       callError store (last (fst run) (ResolveIndex "")) = Some err /\
       message = label ++ err).

(** ** The scripts of the result pages

    The page constants [key], [currentIndex], [maxIndex] and [allValues]
    are the template fields [Key], [Index], [MaxIndex] and [AllValuesJSON].
    Indexes are integers that JavaScript numbers hold exactly (below
    [2 ^ 53]); the query string a script builds is given as the request the
    server decodes from it, which carries the key of the page when that key
    is valid UTF-8 ([validUTF8]). *)

Definition maxSafeInteger : Z := 2 ^ 53 - 1.

Inductive Action : Type :=
| Load (r : Request)
| Update (newIndex : Z) (textContent : option string) (url : Request)
| Stay.

(** [allValues[newIndex]]: [None] is [undefined]. *)
Definition element (allValues : list string) (i : Z) : option string :=
  if i <? 0 then None else nth_error allValues (Z.to_nat i).

(** [navigate] of the preloaded page. *)
Definition navigateWithPreload (key : string) (maxIndex : Z)
    (allValues : list string) (currentIndex delta : Z) : Action :=
  let newIndex := currentIndex + delta in
  if newIndex <? 0 then Load (lindexRequestNoIndex key)
  else
    let newIndex := if maxIndex <? newIndex then 0 else newIndex in
    Update newIndex (element allValues newIndex)
      (lindexRequest key (strconv.FormatInt newIndex)).

(** [navigate] of the page without preload. *)
Definition navigateWithoutPreload (key : string) (maxIndex : Z)
    (currentIndex delta : Z) : Action :=
  let newIndex := currentIndex + delta in
  if newIndex <? 0 then Load (lindexRequestNoIndex key)
  else
    let newIndex := if maxIndex <? newIndex then 0 else newIndex in
    Load (lindexRequest key (strconv.FormatInt newIndex)).

(** The [keydown] listener of both pages, over the [navigate] of the page. *)
Definition keydown (navigate : Z -> Action) (eventKey : string) : Action :=
  if String.eqb eventKey "ArrowLeft" || String.eqb eventKey "Left"
  then navigate (-1)
  else if String.eqb eventKey "ArrowRight" || String.eqb eventKey "Right"
  then navigate 1
  else Stay.

(** A run of key presses on the preloaded page: the index held by
    [currentIndex] afterwards, or the request of the reload that ended the
    page. *)
Fixpoint browse (key : string) (maxIndex : Z) (allValues : list string)
    (currentIndex : Z) (eventKeys : list string) : Z + Request :=
  match eventKeys with
  | [] => inl currentIndex
  | eventKey :: rest =>
      match keydown (navigateWithPreload key maxIndex allValues currentIndex)
                    eventKey with
      | Load r => inr r
      | Update newIndex _ _ => browse key maxIndex allValues newIndex rest
      | Stay => browse key maxIndex allValues currentIndex rest
      end
  end.

(** The script of the older result page. *)
Definition legacyNavigate (key : string) (maxIndex : Z)
    (currentIndex delta : Z) : Action :=
  let newIndex := currentIndex + delta in
  if (0 <=? newIndex) && (newIndex <=? maxIndex)
  then Load (lindexRequest key (strconv.FormatInt newIndex))
  else Stay.

Definition legacyKeydown (key : string) (maxIndex : Z)
    (currentIndex : Z) (eventKey : string) : Action :=
  if String.eqb eventKey "ArrowLeft" || String.eqb eventKey "Left"
  then
    if 0 <? currentIndex then legacyNavigate key maxIndex currentIndex (-1)
    else Stay
  else if String.eqb eventKey "ArrowRight" || String.eqb eventKey "Right"
  then
    if currentIndex <? maxIndex then legacyNavigate key maxIndex currentIndex 1
    else Stay
  else Stay.

(** A store whose element reads agree with its range read and its length. *)
Definition consistentList (store : Store) (key : string)
    (elems : list string) : Prop :=
  Type_ store key = Ok "list" /\
  LLen store key = Ok (len elems) /\
  LRange store key 0 (-1) = Ok elems /\
  forall i, 0 <= i < len elems ->
    exists v, nth_error elems (Z.to_nat i) = Some v /\ LIndex store key i = Ok v.

(** ** What the scan returns, read off the replies

    How the walk over the replies ends when no cap stops it: at a failed
    [SCAN], at the zero cursor, or not within the script. *)
Fixpoint scanEnd (script : list ScanReply) : option (option error) :=
  match script with
  | [] => None
  | ScanErr err :: _ => Some (Some err)
  | ScanOk b :: rest => if cursor b =? 0 then Some None else scanEnd rest
  end.

(** The result of a scan with cap [N] over an accumulation [all] that ends
    as [ending] says: the first [N] entries as soon as [N] are there,
    whatever comes after them; otherwise nothing and the error, or the
    whole accumulation, or no return yet. *)
Definition scanResult {A} (N : Z) (all : list A) (ending : option (option error))
  : option (list A * option error) :=
  if N <=? len all then Some (firstn (Z.to_nat N) all, None)
  else
    match ending with
    | None => None
    | Some None => Some (all, None)
    | Some (Some err) => Some ([], Some err)
    end.

(** ** The formatter with the library calls made explicit

    A call into [encoding/json] returns its (value, error) pair or panics;
    the formatter has no [recover].  The run records the calls it makes:
    they are its only interactions with anything outside its arguments. *)

Inductive outcome (A : Type) : Type :=
| Returned (a : A)
| Panicked (reason : string).
Arguments Returned {A} a.
Arguments Panicked {A} reason.

Inductive JSONCall (any : Type) : Type :=
| CallUnmarshal (data : string)
| CallMarshalIndent (v : any) (prefix indent : string).
Arguments CallUnmarshal {any} data.
Arguments CallMarshalIndent {any} v prefix indent.

Definition prettyPrintJSONWith {any : Type}
    (unmarshal : string -> outcome (result any))
    (marshalIndent : any -> string -> string -> outcome (result string))
    (value : string) : list (JSONCall any) * outcome string :=
  match unmarshal value with
  | Panicked reason => ([CallUnmarshal value], Panicked reason)
  | Returned (Err _) => ([CallUnmarshal value], Returned value)
  | Returned (Ok jsonData) =>
      let calls := [CallUnmarshal value; CallMarshalIndent jsonData "" "  "] in
      match marshalIndent jsonData "" "  " with
      | Panicked reason => (calls, Panicked reason)
      | Returned (Err _) => (calls, Returned value)
      | Returned (Ok prettyJSON) => (calls, Returned prettyJSON)
      end
  end.

(** ** Keys that survive the trip through a page

    The scripts hold the key as [{{.Key}}] renders it in a script (a JSON
    string, in which bytes that are not UTF-8 are replaced) and send it back
    through [encodeURIComponent]; the key the server decodes from the next
    request is the key of the page exactly when the key is valid UTF-8.
    The same holds of the values the preloaded page holds in [allValues].
    [navigateWithPreload], [navigateWithoutPreload] and [legacyNavigate]
    are exact for such keys. *)

Definition byte (c : ascii) : Z := Z.of_nat (nat_of_ascii c).

Definition between (lo : Z) (c : ascii) (hi : Z) : bool :=
  (lo <=? byte c) && (byte c <=? hi).

(** Well-formed UTF-8 (RFC 3629): no stray continuation byte, no overlong
    form, no surrogate, nothing above U+10FFFF. *)
Fixpoint validUTF8 (s : string) : bool :=
  match s with
  | EmptyString => true
  | String c1 s1 =>
      if byte c1 <=? 127 then validUTF8 s1
      else
        match s1 with
        | EmptyString => false
        | String c2 s2 =>
            if between 194 c1 223 then between 128 c2 191 && validUTF8 s2
            else
              match s2 with
              | EmptyString => false
              | String c3 s3 =>
                  if between 224 c1 239 then
                    (if byte c1 =? 224 then between 160 c2 191
                     else if byte c1 =? 237 then between 128 c2 159
                     else between 128 c2 191)
                    && between 128 c3 191 && validUTF8 s3
                  else
                    match s3 with
                    | EmptyString => false
                    | String c4 s4 =>
                        if between 240 c1 244 then
                          (if byte c1 =? 240 then between 144 c2 191
                           else if byte c1 =? 244 then between 128 c2 143
                           else between 128 c2 191)
                          && between 128 c3 191 && between 128 c4 191
                          && validUTF8 s4
                        else false
                    end
              end
        end
  end.

(** ** What two responses have in common

    The older handler renders its result with [renderResult], a page of its
    own; [Legacy.lindexHandler] records the data handed to it (key, index,
    length, value) under the constructor of the page without preload.  The
    projections below are what a statement about both variants may
    compare. *)

Definition responseKey (resp : Response) : option string :=
  match resp with
  | ResultWithPreload key _ _ _ => Some key
  | ResultWithoutPreload key _ _ _ => Some key
  | _ => None
  end.

Definition responseLLen (resp : Response) : option Z :=
  match resp with
  | ResultWithPreload _ _ llen _ => Some llen
  | ResultWithoutPreload _ _ llen _ => Some llen
  | _ => None
  end.

(** The message of a not-found or error page. *)
Definition pageMessage (resp : Response) : option string :=
  match resp with
  | NotFoundPage message => Some message
  | ErrorPage message => Some message
  | _ => None
  end.

(** A library whose decoder panics on the empty input. *)
Definition panickingUnmarshal (s : string)
  : outcome (result LiteralJSON.literal) :=
  if String.eqb s "" then Panicked "unexpected end of JSON input"
  else Returned (LiteralJSON.unmarshal s).

(** * Properties *)

(** ** strconv: parsing against the unbounded reading of a numeral *)

Module strconv_facts.
Import strconv.

Lemma digit_of_range c d : digit_of c = Some d -> 0 <= d <= 9.
Proof.
  unfold digit_of.
  destruct (48 <=? Z.of_nat (nat_of_ascii c)) eqn:Hlo;
    destruct (Z.of_nat (nat_of_ascii c) <=? 57) eqn:Hhi;
    simpl; intros H; inversion H; subst; lia.
Qed.

Lemma digit_of_digit_char d : 0 <= d <= 9 -> digit_of (digit_char d) = Some d.
Proof.
  intros Hd.
  assert (Hcases : d = 0 \/ d = 1 \/ d = 2 \/ d = 3 \/ d = 4 \/
                   d = 5 \/ d = 6 \/ d = 7 \/ d = 8 \/ d = 9) by lia.
  repeat (destruct Hcases as [-> | Hcases]; [reflexivity |]).
  subst d. reflexivity.
Qed.

Lemma digit_char_not_sign d :
  0 <= d <= 9 ->
  Ascii.eqb (digit_char d) "+" = false /\ Ascii.eqb (digit_char d) "-" = false.
Proof.
  intros Hd.
  assert (Hcases : d = 0 \/ d = 1 \/ d = 2 \/ d = 3 \/ d = 4 \/
                   d = 5 \/ d = 6 \/ d = 7 \/ d = 8 \/ d = 9) by lia.
  repeat (destruct Hcases as [-> | Hcases]; [split; reflexivity |]).
  subst d. split; reflexivity.
Qed.

Lemma digits_value_lower s : forall n v,
  0 <= n -> digits_value s n = Some v -> n <= v.
Proof.
  induction s as [| c s IH]; simpl; intros n v Hn H.
  - inversion H. lia.
  - destruct (digit_of c) as [d |] eqn:Hd; [| discriminate].
    apply digit_of_range in Hd.
    apply IH in H; lia.
Qed.

(** The two overflow checks reject exactly the numerals above
    [maxUint64]. *)
Lemma parse_digits_spec s : forall n,
  0 <= n <= maxUint64 ->
  parse_digits s n =
    match digits_value s n with
    | Some v => if v <=? maxUint64 then Some v else None
    | None => None
    end.
Proof.
  induction s as [| c s IH]; simpl; intros n Hn.
  - destruct (Z.leb_spec n maxUint64); [reflexivity | lia].
  - destruct (digit_of c) as [d |] eqn:Hd; [| reflexivity].
    apply digit_of_range in Hd.
    assert (Hcut : cutoff * 10 > maxUint64) by (vm_compute; reflexivity).
    destruct (Z.leb_spec cutoff n) as [Hc | Hc].
    + destruct (digits_value s (n * 10 + d)) as [v |] eqn:Hv; [| reflexivity].
      apply digits_value_lower in Hv; [| lia].
      destruct (Z.leb_spec v maxUint64); [lia | reflexivity].
    + destruct (Z.ltb_spec maxUint64 (n * 10 + d)) as [Ho | Ho].
      * destruct (digits_value s (n * 10 + d)) as [v |] eqn:Hv; [| reflexivity].
        apply digits_value_lower in Hv; [| lia].
        destruct (Z.leb_spec v maxUint64); [lia | reflexivity].
      * apply IH. lia.
Qed.

Lemma digits_value_nonneg s v : digits_value s 0 = Some v -> 0 <= v.
Proof. intros H. apply digits_value_lower in H; lia. Qed.

Lemma ParseUint_spec s :
  ParseUint s =
    match s with
    | EmptyString => None
    | _ =>
        match digits_value s 0 with
        | Some v => if v <=? maxUint64 then Some v else None
        | None => None
        end
    end.
Proof.
  destruct s as [| c s]; [reflexivity |].
  unfold ParseUint. apply parse_digits_spec. unfold maxUint64. lia.
Qed.

(** [ParseInt] succeeds exactly on the numerals that denote an [int64],
    and then returns the integer denoted. *)
Lemma ParseInt_spec s :
  ParseInt s =
    match numeral_value s with
    | Some i => if (minInt64 <=? i) && (i <=? maxInt64) then Some i else None
    | None => None
    end.
Proof.
  destruct s as [| c rest]; [reflexivity |].
  unfold ParseInt, numeral_value.
  destruct (if Ascii.eqb c "+" then (false, rest)
            else if Ascii.eqb c "-" then (true, rest)
            else (false, String c rest)) as [neg body].
  rewrite ParseUint_spec.
  destruct body as [| c' body']; [reflexivity |].
  destruct (digits_value (String c' body') 0) as [un |] eqn:Hun; [| reflexivity].
  apply digits_value_nonneg in Hun.
  unfold minInt64, maxInt64, maxUint64.
  change (2 ^ 63) with 9223372036854775808.
  change (2 ^ 64) with 18446744073709551616.
  destruct neg; cbn [negb andb];
    repeat match goal with
           | |- context [?a <=? ?b] => destruct (Z.leb_spec a b)
           | |- context [?a <? ?b] => destruct (Z.ltb_spec a b)
           end;
    cbn [andb]; try reflexivity; lia.
Qed.

(** Every integer has a numeral: the one [FormatInt] prints. *)
Lemma format_digits_head fuel : forall n acc,
  0 <= n ->
  exists d rest, (0 <= d <= 9) /\
    format_digits fuel n acc = String (digit_char d) rest.
Proof.
  induction fuel as [| fuel IH]; intros n acc Hn; simpl.
  - exists (n mod 10), acc. split; [| reflexivity].
    pose proof (Z.mod_pos_bound n 10). lia.
  - destruct (n <? 10).
    + exists (n mod 10), acc. split; [| reflexivity].
      pose proof (Z.mod_pos_bound n 10). lia.
    + apply IH. apply Z.div_pos; lia.
Qed.

Lemma digits_value_format fuel : forall n acc,
  0 <= n < 10 ^ (Z.of_nat fuel + 1) ->
  digits_value (format_digits fuel n acc) 0 = digits_value acc n.
Proof.
  induction fuel as [| fuel IH]; intros n acc Hn.
  - simpl in *. rewrite Z.mod_small by lia.
    rewrite digit_of_digit_char by lia. reflexivity.
  - cbn [format_digits].
    destruct (Z.ltb_spec n 10) as [Hs | Hs].
    + simpl. rewrite Z.mod_small by lia.
      rewrite digit_of_digit_char by lia. reflexivity.
    + rewrite IH.
      * simpl. rewrite digit_of_digit_char
          by (pose proof (Z.mod_pos_bound n 10); lia).
        f_equal. pose proof (Z.div_mod n 10). lia.
      * split; [apply Z.div_pos; lia |].
        apply Z.div_lt_upper_bound; [lia |].
        replace (Z.of_nat (S fuel) + 1) with (Z.succ (Z.of_nat fuel + 1)) in Hn
          by lia.
        rewrite Z.pow_succ_r in Hn by lia. lia.
Qed.

Lemma FormatUint_numeral n :
  0 <= n ->
  digits_value (FormatUint n) 0 = Some n /\
  exists d rest, (0 <= d <= 9) /\ FormatUint n = String (digit_char d) rest.
Proof.
  intros Hn. unfold FormatUint. split.
  - rewrite digits_value_format; [reflexivity |].
    split; [lia |].
    rewrite Z2Nat.id by apply Z.log2_nonneg.
    destruct (Z.eq_dec n 0) as [-> | Hnz]; [reflexivity |].
    pose proof (Z.log2_spec n ltac:(lia)) as [_ Hlt].
    eapply Z.lt_le_trans; [exact Hlt |].
    replace (Z.log2 n + 1) with (Z.succ (Z.log2 n)) by lia.
    apply Z.pow_le_mono_l. pose proof (Z.log2_nonneg n). lia.
  - apply format_digits_head. exact Hn.
Qed.

Lemma numeral_value_FormatInt i : numeral_value (FormatInt i) = Some i.
Proof.
  unfold FormatInt.
  destruct (Z.ltb_spec i 0) as [Hneg | Hpos].
  - destruct (FormatUint_numeral (- i) ltac:(lia)) as [Hv (d & rest & Hd & Hs)].
    unfold numeral_value.
    change (Ascii.eqb "-" "+") with false.
    change (Ascii.eqb "-" "-") with true. cbv iota.
    rewrite Hs in *. rewrite Hv. f_equal. lia.
  - destruct (FormatUint_numeral i Hpos) as [Hv (d & rest & Hd & Hs)].
    rewrite Hs in *. unfold numeral_value.
    destruct (digit_char_not_sign d Hd) as [-> ->].
    rewrite Hv. reflexivity.
Qed.

Lemma ParseInt_FormatInt i :
  ParseInt (FormatInt i) =
    if (minInt64 <=? i) && (i <=? maxInt64) then Some i else None.
Proof. rewrite ParseInt_spec, numeral_value_FormatInt. reflexivity. Qed.

End strconv_facts.

(** ** The navigator *)

Section NavigatorFacts.

Context {json : EncodingJSON}.

Lemma eqb_empty_false s : s <> "" -> String.eqb s "" = false.
Proof. intros H. apply String.eqb_neq. exact H. Qed.

Lemma resolveIndex_eq indexStr llen :
  resolveIndex indexStr llen =
    ([ResolveIndex indexStr],
     match resolved indexStr llen with
     | Some index => inl index
     | None => inr (NotFoundPage "Invalid 'index' parameter")
     end).
Proof.
  unfold resolveIndex, resolved.
  destruct (String.eqb indexStr ""); [reflexivity |].
  destruct (strconv.ParseInt indexStr); reflexivity.
Qed.

(** Case analysis of a handler run: split on every test the code makes,
    in program order, and evaluate the monadic plumbing. *)
Ltac handler_step :=
  match goal with
  | |- context [resolveIndex _ _] => rewrite resolveIndex_eq
  | H : Type_ ?s ?k = _ |- context [Type_ ?s ?k] => rewrite H
  | H : LLen ?s ?k = _ |- context [LLen ?s ?k] => rewrite H
  | H : resolved ?a ?b = _ |- context [resolved ?a ?b] => rewrite H
  | H : strconv.ParseInt ?a = _ |- context [strconv.ParseInt ?a] => rewrite H
  | H : LRange ?s ?k ?a ?b = _ |- context [LRange ?s ?k ?a ?b] => rewrite H
  | H : LIndex ?s ?k ?a = _ |- context [LIndex ?s ?k ?a] => rewrite H
  | |- context [String.eqb ?a ?b] => destruct (String.eqb a b) eqn:?
  | |- context [Type_ ?s ?k] => destruct (Type_ s k) as [? | ?] eqn:?
  | |- context [LLen ?s ?k] => destruct (LLen s k) as [? | ?] eqn:?
  | |- context [?a =? 0] => destruct (a =? 0) eqn:?
  | |- context [resolved ?a ?b] => destruct (resolved a b) as [? | ] eqn:?
  | |- context [strconv.ParseInt ?a] =>
      destruct (strconv.ParseInt a) as [? | ] eqn:?
  | |- context [(?a <? 0) || (?a >=? ?b)] =>
      destruct ((a <? 0) || (a >=? b)) eqn:?
  | |- context [?a <=? maxPreloadSize ?c] =>
      destruct (a <=? maxPreloadSize c) eqn:?
  | |- context [LRange ?s ?k ?a ?b] =>
      destruct (LRange s k a b) as [? | ?] eqn:?
  | |- context [LIndex ?s ?k ?a] => destruct (LIndex s k a) as [? | ?] eqn:?
  end;
  cbn [bind call mark ret finish run renderNotFound renderError
       renderResultWithPreload renderResultWithoutPreload negb app fst snd].

Ltac handler_cases :=
  unfold lindexHandler, Legacy.lindexHandler;
  cbn [bind call mark ret finish run renderNotFound renderError
       renderResultWithPreload renderResultWithoutPreload negb app fst snd];
  repeat handler_step.

Lemma lindexHandler_trace_shape cfg store r :
  exists n, map kind_of (fst (lindexHandler cfg store r)) =
            firstn n specifiedOrder.
Proof.
  handler_cases.
  all: cbn [map kind_of]; unfold specifiedOrder.
  all: first [ now exists 0%nat | now exists 1%nat | now exists 2%nat
             | now exists 3%nat | now exists 4%nat | now exists 5%nat ].
Qed.

(** Turn the recorded outcomes of the tests into facts and close the
    impossible branches. *)
Ltac tidy :=
  repeat match goal with
    | H : Ok _ = Ok _ |- _ => injection H as H; try subst
    | H : Some _ = Some _ |- _ => injection H as H; try subst
    | H : Ok _ = Err _ |- _ => discriminate H
    | H : Err _ = Ok _ |- _ => discriminate H
    | H : Some _ = None |- _ => discriminate H
    | H : None = Some _ |- _ => discriminate H
    | H : String.eqb _ _ = true |- _ => apply String.eqb_eq in H; try subst
    | H : String.eqb ?a ?a = false |- _ =>
        rewrite String.eqb_refl in H; discriminate H
    | H : String.eqb _ _ = false |- _ => apply String.eqb_neq in H
    | H : (_ =? _) = true |- _ => apply Z.eqb_eq in H
    | H : (_ =? _) = false |- _ => apply Z.eqb_neq in H
    | H : (_ <=? _) = true |- _ => apply Z.leb_le in H
    | H : (_ <=? _) = false |- _ => apply Z.leb_gt in H
    | H : (_ <? _) = true |- _ => apply Z.ltb_lt in H
    | H : (_ <? _) = false |- _ => apply Z.ltb_ge in H
    | H : (_ >=? _) = true |- _ => rewrite Z.geb_leb in H
    | H : (_ >=? _) = false |- _ => rewrite Z.geb_leb in H
    | H : (_ || _)%bool = true |- _ => apply Bool.orb_true_iff in H
    | H : (_ || _)%bool = false |- _ =>
        apply Bool.orb_false_iff in H; destruct H
    | H : (_ && _)%bool = true |- _ =>
        apply Bool.andb_true_iff in H; destruct H
    | H : (_ && _)%bool = false |- _ => apply Bool.andb_false_iff in H
    | H : _ \/ _ |- _ => destruct H
    end;
  try congruence; try lia.

(** The run of the handler once every validation has passed. *)
Lemma lindexHandler_validated cfg store r llen index :
  let key := Get (Query r) "key" in
  let indexStr := Get (Query r) "index" in
  key <> "" ->
  Type_ store key = Ok "list" ->
  LLen store key = Ok llen ->
  resolved indexStr llen = Some index ->
  0 <= index < llen ->
  lindexHandler cfg store r =
    if llen <=? maxPreloadSize cfg
    then
      ((validationSteps key indexStr index llen ++ [CallLRange key 0 (-1)])%list,
       match LRange store key 0 (-1) with
       | Err err => ErrorPage ("Error getting list elements: " ++ err)
       | Ok allValues =>
           ResultWithPreload key index llen (map prettyPrintJSON allValues)
       end)
    else
      ((validationSteps key indexStr index llen ++ [CallLIndex key index])%list,
       match LIndex store key index with
       | Err err => ErrorPage ("Error getting element: " ++ err)
       | Ok value =>
           ResultWithoutPreload key index llen (prettyPrintJSON value)
       end).
Proof.
  intros key indexStr Hkey Htype Hlen Hres Hin. subst key indexStr.
  handler_cases; tidy; try reflexivity.
Qed.

Lemma lindexHandler_out_of_bounds cfg store r llen index :
  let key := Get (Query r) "key" in
  let indexStr := Get (Query r) "index" in
  key <> "" ->
  Type_ store key = Ok "list" ->
  LLen store key = Ok llen ->
  llen <> 0 ->
  resolved indexStr llen = Some index ->
  index < 0 \/ index >= llen ->
  lindexHandler cfg store r =
    (validationSteps key indexStr index llen,
     NotFoundPage (msgOutOfBounds index llen)).
Proof.
  intros key indexStr Hkey Htype Hlen Hnz Hres Hout. subst key indexStr.
  handler_cases; tidy; try reflexivity.
Qed.

Lemma lindexHandler_invalid_index cfg store r llen :
  let key := Get (Query r) "key" in
  let indexStr := Get (Query r) "index" in
  key <> "" ->
  Type_ store key = Ok "list" ->
  LLen store key = Ok llen ->
  llen <> 0 ->
  resolved indexStr llen = None ->
  lindexHandler cfg store r =
    ([CallType key; CallLLen key; ResolveIndex indexStr],
     NotFoundPage "Invalid 'index' parameter").
Proof.
  intros key indexStr Hkey Htype Hlen Hnz Hres. subst key indexStr.
  handler_cases; tidy; try reflexivity.
Qed.

Lemma lindexHandler_empty cfg store r :
  let key := Get (Query r) "key" in
  key <> "" ->
  Type_ store key = Ok "list" ->
  LLen store key = Ok 0 ->
  lindexHandler cfg store r =
    ([CallType key; CallLLen key], NotFoundPage (msgEmpty key)).
Proof.
  intros key Hkey Htype Hlen. subst key.
  handler_cases; tidy; try reflexivity.
Qed.

Lemma lindexHandler_absent cfg store r :
  let key := Get (Query r) "key" in
  key <> "" ->
  Type_ store key = Ok "none" ->
  lindexHandler cfg store r =
    ([CallType key], NotFoundPage (msgDoesNotExist key)).
Proof.
  intros key Hkey Htype. subst key.
  handler_cases; tidy; try reflexivity.
Qed.

(** The same equations for the older handler. *)
Lemma Legacy_lindexHandler_validated store r llen index :
  Get (Query r) "key" <> "" ->
  strconv.ParseInt (Get (Query r) "index") = Some index ->
  Type_ store (Get (Query r) "key") = Ok "list" ->
  LLen store (Get (Query r) "key") = Ok llen ->
  0 <= index < llen ->
  Legacy.lindexHandler store r =
    ((legacySteps (Get (Query r) "key") (Get (Query r) "index") index llen
        ++ [CallLIndex (Get (Query r) "key") index])%list,
     match LIndex store (Get (Query r) "key") index with
     | Err err => ErrorPage ("Error getting element: " ++ err)
     | Ok value =>
         ResultWithoutPreload (Get (Query r) "key") index llen
           (prettyPrintJSON value)
     end).
Proof.
  intros Hkey Hparse Htype Hlen Hin.
  handler_cases; tidy; try reflexivity.
Qed.

Lemma Legacy_lindexHandler_out_of_bounds store r llen index :
  Get (Query r) "key" <> "" ->
  strconv.ParseInt (Get (Query r) "index") = Some index ->
  Type_ store (Get (Query r) "key") = Ok "list" ->
  LLen store (Get (Query r) "key") = Ok llen ->
  llen <> 0 ->
  index < 0 \/ index >= llen ->
  Legacy.lindexHandler store r =
    (legacySteps (Get (Query r) "key") (Get (Query r) "index") index llen,
     NotFoundPage (msgOutOfBounds index llen)).
Proof.
  intros Hkey Hparse Htype Hlen Hnz Hout.
  handler_cases; tidy; try reflexivity.
Qed.

Lemma Legacy_lindexHandler_invalid_index store r :
  Get (Query r) "key" <> "" ->
  strconv.ParseInt (Get (Query r) "index") = None ->
  Legacy.lindexHandler store r =
    ([ResolveIndex (Get (Query r) "index")],
     NotFoundPage "Invalid 'index' parameter").
Proof.
  intros Hkey Hparse.
  handler_cases; tidy; try reflexivity.
Qed.

Lemma Legacy_lindexHandler_empty store r index :
  Get (Query r) "key" <> "" ->
  strconv.ParseInt (Get (Query r) "index") = Some index ->
  Type_ store (Get (Query r) "key") = Ok "list" ->
  LLen store (Get (Query r) "key") = Ok 0 ->
  Legacy.lindexHandler store r =
    ([ResolveIndex (Get (Query r) "index"); CallType (Get (Query r) "key");
      CallLLen (Get (Query r) "key")],
     NotFoundPage (msgEmpty (Get (Query r) "key"))).
Proof.
  intros Hkey Hparse Htype Hlen.
  handler_cases; tidy; try reflexivity.
Qed.

Lemma Legacy_lindexHandler_absent store r index :
  Get (Query r) "key" <> "" ->
  strconv.ParseInt (Get (Query r) "index") = Some index ->
  Type_ store (Get (Query r) "key") = Ok "none" ->
  Legacy.lindexHandler store r =
    ([ResolveIndex (Get (Query r) "index"); CallType (Get (Query r) "key")],
     NotFoundPage (msgDoesNotExist (Get (Query r) "key"))).
Proof.
  intros Hkey Hparse Htype.
  handler_cases; tidy; try reflexivity.
Qed.

Lemma Legacy_lindexHandler_trace_shape store r :
  exists n, map kind_of (fst (Legacy.lindexHandler store r)) =
            firstn n legacyOrder.
Proof.
  handler_cases.
  all: cbn [map kind_of]; unfold legacyOrder.
  all: first [ now exists 0%nat | now exists 1%nat | now exists 2%nat
             | now exists 3%nat | now exists 4%nat | now exists 5%nat ].
Qed.

Lemma numeral_nonempty indexStr i :
  strconv.numeral_value indexStr = Some i -> String.eqb indexStr "" = false.
Proof. destruct indexStr; [discriminate | reflexivity]. Qed.

Lemma resolved_numeral indexStr llen i :
  strconv.numeral_value indexStr = Some i ->
  resolved indexStr llen =
    if (minInt64 <=? i) && (i <=? maxInt64) then Some i else None.
Proof.
  intros H. unfold resolved.
  rewrite (numeral_nonempty _ _ H), strconv_facts.ParseInt_spec, H.
  reflexivity.
Qed.

Lemma wrap64_id z : minInt64 <= z <= maxInt64 -> wrap64 z = z.
Proof.
  unfold wrap64, minInt64, maxInt64. intros H.
  rewrite Z.mod_small; lia.
Qed.

Lemma ParseInt_numeral indexStr i :
  strconv.numeral_value indexStr = Some i ->
  strconv.ParseInt indexStr =
    if (minInt64 <=? i) && (i <=? maxInt64) then Some i else None.
Proof. intros H. rewrite strconv_facts.ParseInt_spec, H. reflexivity. Qed.

Lemma outside_int64 i L :
  0 <= L <= maxInt64 ->
  (minInt64 <=? i) && (i <=? maxInt64) = false ->
  i < 0 \/ i >= L.
Proof.
  intros HL Hrange. apply Bool.andb_false_iff in Hrange.
  unfold minInt64, maxInt64 in *.
  destruct Hrange as [H | H]; apply Z.leb_gt in H; lia.
Qed.

(** C1. For a list of length [L >= 0] and a request whose index numeral
    denotes the integer [i] (of any size), the navigator answers with the
    not-found page if and only if [i < 0] or [i >= L]; so do both variants
    of the handler.  An empty list is either a list key of length 0 or, as
    Redis reports it, an absent key. *)
Theorem lindexHandler_not_found_iff_out_of_range cfg store r (L i : Z) :
  Get (Query r) "key" <> "" ->
  (Type_ store (Get (Query r) "key") = Ok "list" \/
   (L = 0 /\ Type_ store (Get (Query r) "key") = Ok "none")) ->
  LLen store (Get (Query r) "key") = Ok L ->
  0 <= L <= maxInt64 ->
  strconv.numeral_value (Get (Query r) "index") = Some i ->
  (is_not_found (snd (lindexHandler cfg store r)) = true
     <-> (i < 0 \/ i >= L)) /\
  (is_not_found (snd (Legacy.lindexHandler store r)) = true
     <-> (i < 0 \/ i >= L)).
Proof.
  intros Hkey Htype Hlen HL Hnum.
  pose proof (resolved_numeral _ L _ Hnum) as Hres.
  pose proof (ParseInt_numeral _ _ Hnum) as Hparse.
  pose proof (outside_int64 i L HL) as Hout.
  destruct ((minInt64 <=? i) && (i <=? maxInt64)) eqn:Hrange.
  2:{ split.
      - destruct Htype as [Htype | [HL0 Htype]].
        + destruct (Z.eq_dec L 0) as [-> | Hnz].
          * rewrite lindexHandler_empty by assumption.
            simpl. split; [lia | reflexivity].
          * erewrite lindexHandler_invalid_index by eauto.
            simpl. split; [auto | reflexivity].
        + rewrite lindexHandler_absent by assumption.
          simpl. split; [lia | reflexivity].
      - rewrite Legacy_lindexHandler_invalid_index by assumption.
        simpl. split; [auto | reflexivity]. }
  clear Hout.
  destruct Htype as [Htype | [HL0 Htype]].
  2:{ rewrite lindexHandler_absent by assumption.
      erewrite Legacy_lindexHandler_absent by eassumption.
      simpl. split; (split; [lia | reflexivity]). }
  destruct (Z.eq_dec L 0) as [-> | Hnz].
  { rewrite lindexHandler_empty by assumption.
    erewrite Legacy_lindexHandler_empty by eassumption.
    simpl. split; (split; [lia | reflexivity]). }
  destruct (Z_lt_dec i 0) as [Hneg | Hpos];
    [| destruct (Z_ge_dec i L) as [Hge | Hlt]].
  - erewrite lindexHandler_out_of_bounds by (eauto; lia).
    erewrite Legacy_lindexHandler_out_of_bounds by (eauto; lia).
    simpl. split; (split; [lia | reflexivity]).
  - erewrite lindexHandler_out_of_bounds by (eauto; lia).
    erewrite Legacy_lindexHandler_out_of_bounds by (eauto; lia).
    simpl. split; (split; [lia | reflexivity]).
  - erewrite lindexHandler_validated by (eauto; lia).
    erewrite Legacy_lindexHandler_validated by (eauto; lia).
    split.
    + destruct (L <=? maxPreloadSize cfg); simpl.
      * destruct (LRange store _ 0 (-1)); simpl; split;
          intros; try discriminate; lia.
      * destruct (LIndex store _ i); simpl; split;
          intros; try discriminate; lia.
    + simpl. destruct (LIndex store _ i); simpl; split;
        intros; try discriminate; lia.
Qed.

(** C2. On a non-empty list and a resolved in-bounds index the navigator
    bulk-reads the whole list ([LRange key 0 -1]) and returns every value
    formatted exactly when [llen <= maxPreloadSize], and fetches the one
    element ([LIndex key index]) exactly when [llen > maxPreloadSize]. *)
Theorem lindexHandler_strategy cfg store r (key indexStr : string)
    (llen index : Z) :
  Get (Query r) "key" = key ->
  Get (Query r) "index" = indexStr ->
  key <> "" ->
  Type_ store key = Ok "list" ->
  LLen store key = Ok llen ->
  resolved indexStr llen = Some index ->
  0 <= index < llen ->
  issuesLRange (fst (lindexHandler cfg store r))
    = (llen <=? maxPreloadSize cfg) /\
  issuesLIndex (fst (lindexHandler cfg store r))
    = (maxPreloadSize cfg <? llen) /\
  (llen <= maxPreloadSize cfg ->
     fst (lindexHandler cfg store r) =
       (validationSteps key indexStr index llen
          ++ [CallLRange key 0 (-1)])%list /\
     forall allValues, LRange store key 0 (-1) = Ok allValues ->
       snd (lindexHandler cfg store r) =
         ResultWithPreload key index llen (map prettyPrintJSON allValues)) /\
  (llen > maxPreloadSize cfg ->
     fst (lindexHandler cfg store r) =
       (validationSteps key indexStr index llen
          ++ [CallLIndex key index])%list /\
     forall value, LIndex store key index = Ok value ->
       snd (lindexHandler cfg store r) =
         ResultWithoutPreload key index llen (prettyPrintJSON value)).
Proof.
  intros <- <- Hkey Htype Hlen Hres Hin.
  rewrite (lindexHandler_validated cfg store r llen index) by assumption.
  destruct (Z.leb_spec llen (maxPreloadSize cfg)) as [Hle | Hgt].
  - destruct (Z.ltb_spec (maxPreloadSize cfg) llen); [lia |].
    repeat split; try reflexivity; try lia.
    cbn [snd]. intros allValues ->. reflexivity.
  - destruct (Z.ltb_spec (maxPreloadSize cfg) llen); [| lia].
    repeat split; try reflexivity; try lia.
    cbn [snd]. intros value ->. reflexivity.
Qed.

(** C3, as the code has it.  For a list key whose length [L] is strictly
    positive, the preload-capable handler resolves a request with no index
    to [L - 1]: the bounds check and the fetch are run at [L - 1] and the
    rendered result carries it.  The older handler has no default and
    answers the same request with the not-found page of an invalid
    index. *)
Theorem lindexHandler_defaults_to_newest cfg store r (key : string) (L : Z) :
  Get (Query r) "key" = key ->
  Get (Query r) "index" = "" ->
  key <> "" ->
  Type_ store key = Ok "list" ->
  LLen store key = Ok L ->
  0 < L <= maxInt64 ->
  resolved (Get (Query r) "index") L = Some (L - 1) /\
  lindexHandler cfg store r =
    (if L <=? maxPreloadSize cfg
     then
       ((validationSteps key "" (L - 1) L ++ [CallLRange key 0 (-1)])%list,
        match LRange store key 0 (-1) with
        | Err err => ErrorPage ("Error getting list elements: " ++ err)
        | Ok allValues =>
            ResultWithPreload key (L - 1) L (map prettyPrintJSON allValues)
        end)
     else
       ((validationSteps key "" (L - 1) L ++ [CallLIndex key (L - 1)])%list,
        match LIndex store key (L - 1) with
        | Err err => ErrorPage ("Error getting element: " ++ err)
        | Ok value =>
            ResultWithoutPreload key (L - 1) L (prettyPrintJSON value)
        end)) /\
  Legacy.lindexHandler store r =
    ([ResolveIndex ""], NotFoundPage "Invalid 'index' parameter").
Proof.
  intros <- Hidx Hkey Htype Hlen HL.
  assert (Hres : resolved (Get (Query r) "index") L = Some (L - 1)).
  { rewrite Hidx. unfold resolved. simpl.
    rewrite wrap64_id; [reflexivity |].
    unfold minInt64, maxInt64 in *. lia. }
  split; [exact Hres |]. split.
  - rewrite (lindexHandler_validated cfg store r L (L - 1))
      by (try assumption; lia).
    rewrite Hidx. reflexivity.
  - rewrite Legacy_lindexHandler_invalid_index.
    + rewrite Hidx. reflexivity.
    + exact Hkey.
    + rewrite Hidx. reflexivity.
Qed.

(** C8, as the code has it.  Every run of the preload-capable handler
    executes its steps in the order type check, length check, index
    resolution, bounds check, fetch: the run is an initial segment of that
    sequence; an index that does not parse is reported only after the type
    and length checks have run.  Every run of the older handler is an
    initial segment of index parsing, type check, length check, bounds
    check, fetch.  In both, a fetch is issued only after every validation
    has passed. *)
Theorem lindexHandler_step_order cfg store r :
  ((exists n,
      map kind_of (fst (lindexHandler cfg store r)) = firstn n specifiedOrder) /\
   (snd (lindexHandler cfg store r) = NotFoundPage "Invalid 'index' parameter" ->
      fst (lindexHandler cfg store r) =
        [CallType (Get (Query r) "key"); CallLLen (Get (Query r) "key");
         ResolveIndex (Get (Query r) "index")]) /\
   (forall s,
      In s (fst (lindexHandler cfg store r)) -> is_fetch s = true ->
      Get (Query r) "key" <> "" /\
      Type_ store (Get (Query r) "key") = Ok "list" /\
      exists llen index,
        LLen store (Get (Query r) "key") = Ok llen /\ llen <> 0 /\
        resolved (Get (Query r) "index") llen = Some index /\
        0 <= index < llen /\
        fst (lindexHandler cfg store r) =
          (validationSteps (Get (Query r) "key") (Get (Query r) "index")
             index llen ++ [s])%list)) /\
  ((exists n,
      map kind_of (fst (Legacy.lindexHandler store r)) = firstn n legacyOrder) /\
   (forall s,
      In s (fst (Legacy.lindexHandler store r)) -> is_fetch s = true ->
      Get (Query r) "key" <> "" /\
      Type_ store (Get (Query r) "key") = Ok "list" /\
      exists llen index,
        strconv.ParseInt (Get (Query r) "index") = Some index /\
        LLen store (Get (Query r) "key") = Ok llen /\ llen <> 0 /\
        0 <= index < llen /\
        fst (Legacy.lindexHandler store r) =
          (legacySteps (Get (Query r) "key") (Get (Query r) "index")
             index llen ++ [s])%list)).
Proof.
  split; (split; [first [ apply lindexHandler_trace_shape
                        | apply Legacy_lindexHandler_trace_shape ] |]).
  - handler_cases.
    all: split;
      [ intros Hmsg; first [ reflexivity | discriminate Hmsg ]
      | intros s Hin Hf; cbn [In] in Hin;
        repeat (destruct Hin as [<- | Hin]; [try discriminate Hf |]);
        try contradiction ].
    all: tidy.
    all: split; [assumption |]; split; [reflexivity |].
    all: eexists _, _; split; [reflexivity |]; split; [assumption |].
    all: split; [eassumption |]; split; [lia | reflexivity].
  - handler_cases.
    all: intros s Hin Hf; cbn [In] in Hin;
      repeat (destruct Hin as [<- | Hin]; [try discriminate Hf |]);
      try contradiction.
    all: tidy.
    all: split; [assumption |]; split; [reflexivity |].
    all: eexists _, _; split; [reflexivity |]; split; [reflexivity |].
    all: split; [assumption |]; split; [lia | reflexivity].
Qed.

(** ** Further properties of the navigator *)

Ltac use_replies :=
  repeat match goal with
    | H : Type_ ?s ?k = _ |- context [Type_ ?s ?k] => rewrite H
    | H : LLen ?s ?k = _ |- context [LLen ?s ?k] => rewrite H
    | H : LRange ?s ?k ?a ?b = _ |- context [LRange ?s ?k ?a ?b] => rewrite H
    | H : LIndex ?s ?k ?a = _ |- context [LIndex ?s ?k ?a] => rewrite H
    end.

(** X1. A result page is only rendered for a valid snapshot: it carries the
    requested key, the length the store reported and an index within
    [0, llen), and its content is the formatted reply of the one fetch the
    threshold selects.  The same holds for the older handler. *)
Theorem lindexHandler_result_is_valid_snapshot cfg store r :
  (forall key index llen allValues,
     snd (lindexHandler cfg store r) = ResultWithPreload key index llen allValues ->
     key = Get (Query r) "key" /\ key <> "" /\
     Type_ store key = Ok "list" /\ LLen store key = Ok llen /\
     0 <= index < llen /\ llen <= maxPreloadSize cfg /\
     resolved (Get (Query r) "index") llen = Some index /\
     exists raw, LRange store key 0 (-1) = Ok raw /\
                 allValues = map prettyPrintJSON raw) /\
  (forall key index llen value,
     snd (lindexHandler cfg store r) = ResultWithoutPreload key index llen value ->
     key = Get (Query r) "key" /\ key <> "" /\
     Type_ store key = Ok "list" /\ LLen store key = Ok llen /\
     0 <= index < llen /\ maxPreloadSize cfg < llen /\
     resolved (Get (Query r) "index") llen = Some index /\
     exists raw, LIndex store key index = Ok raw /\
                 value = prettyPrintJSON raw) /\
  (forall key index llen value,
     snd (Legacy.lindexHandler store r) = ResultWithoutPreload key index llen value ->
     key = Get (Query r) "key" /\ key <> "" /\
     Type_ store key = Ok "list" /\ LLen store key = Ok llen /\
     0 <= index < llen /\
     strconv.ParseInt (Get (Query r) "index") = Some index /\
     exists raw, LIndex store key index = Ok raw /\
                 value = prettyPrintJSON raw) /\
  (forall key index llen allValues,
     snd (Legacy.lindexHandler store r)
       <> ResultWithPreload key index llen allValues).
Proof.
  split; [| split; [| split]].
  - handler_cases; intros key index llen allValues Hresp;
      try discriminate Hresp.
    injection Hresp as <- <- <- <-. tidy.
    repeat (split; [first [reflexivity | assumption | lia] |]).
    eexists. split; [eassumption | reflexivity].
  - handler_cases; intros key index llen value Hresp;
      try discriminate Hresp.
    injection Hresp as <- <- <- <-. tidy.
    repeat (split; [first [reflexivity | assumption | lia] |]).
    eexists. split; [eassumption | reflexivity].
  - handler_cases; intros key index llen value Hresp;
      try discriminate Hresp.
    injection Hresp as <- <- <- <-. tidy.
    repeat (split; [first [reflexivity | assumption | lia] |]).
    eexists. split; [eassumption | reflexivity].
  - handler_cases; intros key index llen allValues Hresp; discriminate Hresp.
Qed.

(** X2. A store failure is reported as such and at once: the handler
    answers 500 exactly when a store call it issued failed, that call is the
    last step of the run, and the error page quotes its error.  So no 404
    and no result page ever follows a failed call. *)
Theorem lindexHandler_reports_store_failure cfg store r :
  reportsStoreFailure store (lindexHandler cfg store r) /\
  reportsStoreFailure store (Legacy.lindexHandler store r).
Proof.
  unfold reportsStoreFailure.
  split; handler_cases;
    cbn [fst snd removelast forallb existsb last callFailed callError
         statusCode negb andb orb];
    use_replies;
    cbn [failed replyError negb andb orb].
  all: split; [reflexivity |].
  all: split;
    [ split; intros H; first [reflexivity | discriminate H]
    | intros message Hm; try discriminate Hm ].
  all: match type of Hm with
       | ErrorPage (append ?label ?err) = _ =>
           exists label, err; split; [reflexivity |];
           injection Hm as <-; reflexivity
       end.
Qed.

(** X3. One navigation request costs the store at most three round trips,
    at most one of which is a fetch; a run never issues both the range read
    and the element read. *)
Theorem lindexHandler_round_trips cfg store r :
  (List.length (filter isStoreCall (fst (lindexHandler cfg store r))) <= 3)%nat /\
  (List.length (filter is_fetch (fst (lindexHandler cfg store r))) <= 1)%nat /\
  issuesLRange (fst (lindexHandler cfg store r))
    && issuesLIndex (fst (lindexHandler cfg store r)) = false /\
  (List.length (filter isStoreCall (fst (Legacy.lindexHandler store r))) <= 3)%nat /\
  issuesLRange (fst (Legacy.lindexHandler store r)) = false.
Proof.
  repeat split; handler_cases; cbn; first [reflexivity | lia].
Qed.

Lemma resolved_parsed indexStr llen index :
  strconv.ParseInt indexStr = Some index ->
  resolved indexStr llen = Some index.
Proof.
  intros H. unfold resolved.
  destruct indexStr; [discriminate H | exact H].
Qed.

Lemma lindexHandler_legacy_same_run cfg store r index :
  strconv.ParseInt (Get (Query r) "index") = Some index ->
  (forall llen, LLen store (Get (Query r) "key") = Ok llen ->
                maxPreloadSize cfg < llen) ->
  snd (lindexHandler cfg store r) = snd (Legacy.lindexHandler store r) /\
  filter isStoreCall (fst (lindexHandler cfg store r))
    = filter isStoreCall (fst (Legacy.lindexHandler store r)).
Proof.
  intros Hparse Hbig.
  handler_cases; cbn [fst snd filter isStoreCall].
  all: repeat match goal with
         | H : resolved _ ?l = _ |- _ =>
             rewrite (resolved_parsed _ l _ Hparse) in H
         end.
  all: try specialize (Hbig _ eq_refl).
  all: tidy.
  all: split; first [reflexivity | congruence].
Qed.

(** X4. With preloading out of play (the threshold below every length the
    store reports), the two handlers treat every request whose index parses
    alike: same status, same message on a not-found or error page, same
    key, index, length and value handed to the result page, and the same
    store calls in the same order.  (The result pages themselves differ:
    the older handler renders [renderResult].) *)
Theorem lindexHandler_agrees_with_legacy cfg store r index :
  strconv.ParseInt (Get (Query r) "index") = Some index ->
  (forall llen, LLen store (Get (Query r) "key") = Ok llen ->
                maxPreloadSize cfg < llen) ->
  statusCode (snd (lindexHandler cfg store r))
    = statusCode (snd (Legacy.lindexHandler store r)) /\
  pageMessage (snd (lindexHandler cfg store r))
    = pageMessage (snd (Legacy.lindexHandler store r)) /\
  responseKey (snd (lindexHandler cfg store r))
    = responseKey (snd (Legacy.lindexHandler store r)) /\
  responseIndex (snd (lindexHandler cfg store r))
    = responseIndex (snd (Legacy.lindexHandler store r)) /\
  responseLLen (snd (lindexHandler cfg store r))
    = responseLLen (snd (Legacy.lindexHandler store r)) /\
  displayedValue (snd (lindexHandler cfg store r))
    = displayedValue (snd (Legacy.lindexHandler store r)) /\
  filter isStoreCall (fst (lindexHandler cfg store r))
    = filter isStoreCall (fst (Legacy.lindexHandler store r)).
Proof.
  intros Hparse Hbig.
  destruct (lindexHandler_legacy_same_run cfg store r index Hparse Hbig)
    as [-> ->].
  repeat split.
Qed.

(** On a consistent store a validated request shows the formatted element
    at the resolved index, whatever the threshold. *)
Lemma lindexHandler_shows_element cfg store r elems index :
  Get (Query r) "key" <> "" ->
  consistentList store (Get (Query r) "key") elems ->
  resolved (Get (Query r) "index") (len elems) = Some index ->
  0 <= index < len elems ->
  exists v,
    nth_error elems (Z.to_nat index) = Some v /\
    displayedValue (snd (lindexHandler cfg store r)) = Some (prettyPrintJSON v) /\
    statusCode (snd (lindexHandler cfg store r)) = 200 /\
    responseIndex (snd (lindexHandler cfg store r)) = Some index.
Proof.
  intros Hkey (Htype & Hlen & Hrange & Helem) Hres Hin.
  destruct (Helem index Hin) as (v & Hnth & Hindex).
  exists v. split; [exact Hnth |].
  rewrite (lindexHandler_validated cfg store r (len elems) index)
    by assumption.
  destruct (len elems <=? maxPreloadSize cfg); cbn [snd].
  - rewrite Hrange. cbn [displayedValue statusCode responseIndex].
    destruct (Z.ltb_spec index 0); [lia |].
    rewrite nth_error_map, Hnth. auto.
  - rewrite Hindex. cbn [displayedValue statusCode responseIndex]. auto.
Qed.

(** X5. The threshold changes the cost of a request, not its answer: on a
    store whose element reads agree with its range read, two settings of
    [maxPreloadSize] give every request the same status, the same index and
    the same displayed value. *)
Theorem lindexHandler_answer_independent_of_threshold cfg1 cfg2 store r elems :
  consistentList store (Get (Query r) "key") elems ->
  statusCode (snd (lindexHandler cfg1 store r))
    = statusCode (snd (lindexHandler cfg2 store r)) /\
  responseIndex (snd (lindexHandler cfg1 store r))
    = responseIndex (snd (lindexHandler cfg2 store r)) /\
  displayedValue (snd (lindexHandler cfg1 store r))
    = displayedValue (snd (lindexHandler cfg2 store r)).
Proof.
  intros Hcons.
  destruct (String.eqb (Get (Query r) "key") "") eqn:Hkey.
  { unfold lindexHandler. rewrite Hkey. auto. }
  apply String.eqb_neq in Hkey.
  destruct (resolved (Get (Query r) "index") (len elems)) as [index |] eqn:Hres.
  - destruct (Z_lt_dec index 0) as [Hneg | Hpos];
      [| destruct (Z_ge_dec index (len elems)) as [Hge | Hlt]].
    3:{ destruct (lindexHandler_shows_element cfg1 store r elems index)
          as (v1 & Hv1 & -> & -> & ->); try assumption; try lia.
        destruct (lindexHandler_shows_element cfg2 store r elems index)
          as (v2 & Hv2 & -> & -> & ->); try assumption; try lia.
        rewrite Hv1 in Hv2. injection Hv2 as <-. auto. }
    all: destruct Hcons as (Htype & Hlen & _);
      handler_cases; tidy; auto.
  - destruct Hcons as (Htype & Hlen & _).
    handler_cases; tidy; auto.
Qed.

(** ** The pages and the handler together *)

Lemma MaxIndex_len {A} (elems : list A) :
  0 < len elems <= maxSafeInteger -> MaxIndex (len elems) = len elems - 1.
Proof.
  intros H. unfold MaxIndex. apply wrap64_id.
  unfold minInt64, maxInt64, maxSafeInteger in *. lia.
Qed.

Lemma resolved_FormatInt n llen :
  minInt64 <= n <= maxInt64 ->
  resolved (strconv.FormatInt n) llen = Some n.
Proof.
  intros Hn. apply resolved_parsed.
  rewrite strconv_facts.ParseInt_FormatInt.
  destruct (Z.leb_spec minInt64 n); [| lia].
  destruct (Z.leb_spec n maxInt64); [reflexivity | lia].
Qed.

Lemma resolved_empty llen :
  0 < llen <= maxInt64 -> resolved "" llen = Some (llen - 1).
Proof.
  intros H. unfold resolved. simpl. rewrite wrap64_id; [reflexivity |].
  unfold minInt64, maxInt64 in *. lia.
Qed.

(** One step of paging, as a position on the cycle of the list. *)
Lemma step_mod index delta n :
  0 <= index < n ->
  delta = 1 \/ delta = -1 ->
  (index + delta) mod n =
    if index + delta <? 0 then n - 1
    else if n - 1 <? index + delta then 0
    else index + delta.
Proof.
  intros Hi Hd.
  destruct (Z.ltb_spec (index + delta) 0) as [Hneg | Hpos].
  - symmetry. apply (Z.mod_unique _ _ (-1)); lia.
  - destruct (Z.ltb_spec (n - 1) (index + delta)) as [Hbig | Hsmall].
    + symmetry. apply (Z.mod_unique _ _ 1); lia.
    + apply Z.mod_small. lia.
Qed.

(** X6. Paging from a page without preload is cyclic in both directions:
    for a key that is valid UTF-8 (so that the script sends back the key of
    the page) and an unchanged, consistent list, the request the script
    issues for
    Older or Newer is answered with status 200 at position
    [(index + delta) mod llen] (past the newest comes the oldest, before
    the oldest the newest) and shows the formatted element stored there. *)
Theorem paging_without_preload_is_cyclic cfg store key elems index delta :
  validUTF8 key = true ->
  key <> "" ->
  consistentList store key elems ->
  0 <= index < len elems ->
  len elems <= maxSafeInteger ->
  delta = 1 \/ delta = -1 ->
  exists r' v,
    navigateWithoutPreload key (MaxIndex (len elems)) index delta = Load r' /\
    nth_error elems (Z.to_nat ((index + delta) mod len elems)) = Some v /\
    statusCode (snd (lindexHandler cfg store r')) = 200 /\
    responseIndex (snd (lindexHandler cfg store r'))
      = Some ((index + delta) mod len elems) /\
    displayedValue (snd (lindexHandler cfg store r')) = Some (prettyPrintJSON v).
Proof.
  intros _ Hkey Hcons Hin Hsafe Hdelta.
  assert (Hint : len elems <= maxInt64)
    by (unfold maxInt64, maxSafeInteger in *; lia).
  rewrite (step_mod index delta (len elems) Hin Hdelta).
  unfold navigateWithoutPreload. rewrite MaxIndex_len by lia.
  destruct (Z.ltb_spec (index + delta) 0) as [Hneg | Hpos].
  - destruct (lindexHandler_shows_element cfg store (lindexRequestNoIndex key)
                elems (len elems - 1)) as (v & Hv & Hd & Hs & Hi);
      try assumption; try lia.
    { apply resolved_empty. lia. }
    exists (lindexRequestNoIndex key), v. auto.
  - set (target := if len elems - 1 <? index + delta then 0 else index + delta).
    assert (Htarget : 0 <= target < len elems)
      by (subst target; destruct (Z.ltb_spec (len elems - 1) (index + delta)); lia).
    destruct (lindexHandler_shows_element cfg store
                (lindexRequest key (strconv.FormatInt target)) elems target)
      as (v & Hv & Hd & Hs & Hi); try assumption.
    { apply resolved_FormatInt. unfold minInt64. unfold maxInt64 in *. lia. }
    exists (lindexRequest key (strconv.FormatInt target)), v. auto.
Qed.


(** X8. The older page never leaves the list and does not wrap: a key
    press either does nothing (any other key, Left at the oldest element,
    Right at the newest) or requests a neighbouring position, which the
    older handler answers with status 200 at that position on an unchanged,
    consistent list whose key is valid UTF-8 (so that the script sends back
    the key of the page). *)
Theorem legacy_paging_stays_in_list store key elems index eventKey :
  validUTF8 key = true ->
  key <> "" ->
  consistentList store key elems ->
  0 <= index < len elems ->
  len elems <= maxSafeInteger ->
  (legacyKeydown key (MaxIndex (len elems)) index "ArrowLeft" = Stay
     <-> index = 0) /\
  (legacyKeydown key (MaxIndex (len elems)) index "ArrowRight" = Stay
     <-> index = len elems - 1) /\
  match legacyKeydown key (MaxIndex (len elems)) index eventKey with
  | Load r' =>
      exists n,
        (n = index - 1 \/ n = index + 1) /\ 0 <= n < len elems /\
        r' = lindexRequest key (strconv.FormatInt n) /\
        statusCode (snd (Legacy.lindexHandler store r')) = 200 /\
        responseIndex (snd (Legacy.lindexHandler store r')) = Some n
  | Stay => True
  | Update _ _ _ => False
  end.
Proof.
  intros _ Hkey (Htype & Hlen & Hrange & Helem) Hin Hsafe.
  assert (Hint : len elems <= maxInt64)
    by (unfold maxInt64, maxSafeInteger in *; lia).
  rewrite MaxIndex_len by lia.
  assert (Hserve : forall n, 0 <= n < len elems ->
            statusCode (snd (Legacy.lindexHandler store
                               (lindexRequest key (strconv.FormatInt n)))) = 200 /\
            responseIndex (snd (Legacy.lindexHandler store
                               (lindexRequest key (strconv.FormatInt n)))) = Some n).
  { intros n Hn. destruct (Helem n Hn) as (v & _ & Hv).
    rewrite (Legacy_lindexHandler_validated store _ (len elems) n);
      try assumption.
    - cbn [snd]. change (Get (Query (lindexRequest key (strconv.FormatInt n))) "key")
        with key. rewrite Hv. auto.
    - change (strconv.ParseInt (strconv.FormatInt n) = Some n).
      rewrite strconv_facts.ParseInt_FormatInt.
      destruct (Z.leb_spec minInt64 n); [| unfold minInt64 in *; lia].
      destruct (Z.leb_spec n maxInt64); [reflexivity | lia]. }
  unfold legacyKeydown, legacyNavigate.
  split; [| split].
  - cbn [String.eqb Ascii.eqb Bool.eqb orb].
    destruct (Z.ltb_spec 0 index).
    + destruct (Z.leb_spec 0 (index + -1)); [| lia].
      destruct (Z.leb_spec (index + -1) (len elems - 1)); [| lia].
      cbn [andb]. split; [discriminate | lia].
    + split; [lia | reflexivity].
  - cbn [String.eqb Ascii.eqb Bool.eqb orb].
    destruct (Z.ltb_spec index (len elems - 1)).
    + destruct (Z.leb_spec 0 (index + 1)); [| lia].
      destruct (Z.leb_spec (index + 1) (len elems - 1)); [| lia].
      cbn [andb]. split; [discriminate | lia].
    + split; [lia | reflexivity].
  - destruct (String.eqb eventKey "ArrowLeft" || String.eqb eventKey "Left").
    + destruct (Z.ltb_spec 0 index); [| exact I].
      destruct (Z.leb_spec 0 (index + -1)); [| exact I].
      destruct (Z.leb_spec (index + -1) (len elems - 1)); [| exact I].
      cbn [andb]. exists (index + -1).
      destruct (Hserve (index + -1)); [lia |].
      repeat split; try assumption; lia.
    + destruct (String.eqb eventKey "ArrowRight" || String.eqb eventKey "Right");
        [| exact I].
      destruct (Z.ltb_spec index (len elems - 1)); [| exact I].
      destruct (Z.leb_spec 0 (index + 1)); [| exact I].
      destruct (Z.leb_spec (index + 1) (len elems - 1)); [| exact I].
      cbn [andb]. exists (index + 1).
      destruct (Hserve (index + 1)); [lia |].
      repeat split; try assumption; lia.
Qed.

End NavigatorFacts.

(** ** The formatter *)

Section FormatterFacts.

Context {json : EncodingJSON}.

Lemma prettyPrintJSON_cases value :
  (prettyPrintJSON value = value /\
   (forall v, Unmarshal value = Ok v -> exists e, MarshalIndent v "" "  " = Err e))
  \/
  (exists v pretty,
      Unmarshal value = Ok v /\ MarshalIndent v "" "  " = Ok pretty /\
      prettyPrintJSON value = pretty).
Proof.
  unfold prettyPrintJSON.
  destruct (Unmarshal value) as [v | e] eqn:Hu.
  - destruct (MarshalIndent v "" "  ") as [pretty | e] eqn:Hm.
    + right. exists v, pretty. auto.
    + left. split; [reflexivity |].
      intros v' Hv'. injection Hv' as <-. eauto.
  - left. split; [reflexivity |]. intros v Hv. discriminate Hv.
Qed.

(** C5. When the input decodes as JSON, the formatted text decodes as
    JSON too, to the same value. *)
Theorem prettyPrintJSON_round_trip (value : string) (v : any) :
  roundTrips json ->
  Unmarshal value = Ok v ->
  Unmarshal (prettyPrintJSON value) = Ok v.
Proof.
  intros Hrt Hv.
  destruct (prettyPrintJSON_cases value)
    as [[-> _] | (v' & pretty & Hu & Hm & ->)]; [exact Hv |].
  rewrite Hv in Hu. injection Hu as <-.
  exact (Hrt value v pretty Hv Hm).
Qed.

(** C6. When the input does not decode as JSON, the formatter returns it
    unchanged. *)
Theorem prettyPrintJSON_invalid_unchanged (value : string) (e : error) :
  Unmarshal value = Err e ->
  prettyPrintJSON value = value.
Proof. intros H. unfold prettyPrintJSON. rewrite H. reflexivity. Qed.


(** C10. Formatting is idempotent: formatting the formatter's output
    changes nothing. *)
Theorem prettyPrintJSON_idempotent (value : string) :
  roundTrips json ->
  prettyPrintJSON (prettyPrintJSON value) = prettyPrintJSON value.
Proof.
  intros Hrt.
  destruct (prettyPrintJSON_cases value)
    as [[H _] | (v & pretty & Hu & Hm & ->)]; [rewrite !H; reflexivity |].
  unfold prettyPrintJSON.
  rewrite (Hrt value v pretty Hu Hm), Hm. reflexivity.
Qed.

End FormatterFacts.

(** ** The discovery scan *)

Module ScanFacts.

Local Open Scope list_scope.

Lemma len_app {A} (l1 l2 : list A) : len (l1 ++ l2) = len l1 + len l2.
Proof. unfold len. rewrite length_app. lia. Qed.

Lemma len_nonneg {A} (l : list A) : 0 <= len l.
Proof. unfold len. lia. Qed.

Lemma firstn_short {A} (N : Z) (l : list A) :
  len l <= N -> firstn (Z.to_nat N) l = l.
Proof. unfold len. intros H. apply firstn_all2. lia. Qed.

Lemma firstn_app_long {A} (N : Z) (l1 l2 : list A) :
  N <= len l1 -> firstn (Z.to_nat N) (l1 ++ l2) = firstn (Z.to_nat N) l1.
Proof.
  unfold len. intros H. rewrite firstn_app.
  replace (Z.to_nat N - List.length l1)%nat with 0%nat by lia.
  simpl. apply app_nil_r.
Qed.

Lemma len_firstn {A} (N : Z) (l : list A) :
  0 <= N -> len (firstn (Z.to_nat N) l) = Z.min N (len l).
Proof. unfold len. intros H. rewrite length_firstn. lia. Qed.

(** The second pass either appends every sized list of the batch and
    stays under the cap, or returns from inside the loop with exactly the
    first [maxLists] entries. *)
Lemma appendSizes_spec N ks : forall acc,
  len acc < N ->
  (appendSizes N ks acc = (acc ++ sizedLists ks, false)%list /\
   len (acc ++ sizedLists ks) < N) \/
  (appendSizes N ks acc = (firstn (Z.to_nat N) (acc ++ sizedLists ks), true) /\
   N <= len (acc ++ sizedLists ks)).
Proof.
  induction ks as [| k ks IH]; intros acc Hacc.
  - left. simpl. rewrite app_nil_r. auto.
  - cbn [appendSizes sizedLists flat_map].
    fold (sizedLists ks).
    destruct (llenResult k) as [size | e].
    + set (x := {| Name := keyName k; Size := size |}).
      cbn [app].
      replace (acc ++ x :: sizedLists ks)%list
        with ((acc ++ [x]) ++ sizedLists ks)%list
        by (rewrite <- app_assoc; reflexivity).
      assert (Hlen : len (acc ++ [x]) = len acc + 1)
        by (rewrite len_app; reflexivity).
      destruct (len (acc ++ [x]) >=? N) eqn:Hcap; rewrite Z.geb_leb in Hcap.
      * apply Z.leb_le in Hcap. right. split.
        -- rewrite firstn_app_long by exact Hcap.
           rewrite firstn_short by lia. reflexivity.
        -- rewrite len_app. pose proof (len_nonneg (sizedLists ks)). lia.
      * apply Z.leb_gt in Hcap. apply IH. exact Hcap.
    + cbn [app]. apply IH. exact Hacc.
Qed.

Lemma processBatch_spec N b acc :
  len acc < N ->
  (processBatch N b acc = (acc ++ batchLists b, false)%list /\
   len (acc ++ batchLists b) < N) \/
  (processBatch N b acc = (firstn (Z.to_nat N) (acc ++ batchLists b), true) /\
   N <= len (acc ++ batchLists b)).
Proof.
  intros Hacc.
  assert (Hskip : forall l, l = [] ->
            (acc, false) = ((acc ++ l)%list, false) /\ len (acc ++ l) < N).
  { intros l ->. rewrite app_nil_r. auto. }
  unfold processBatch, batchLists.
  destruct (Z.ltb_spec 0 (len (keys b))) as [Hk | Hk].
  - destruct (typeExecErr b); [left; apply Hskip; reflexivity |].
    destruct (Z.ltb_spec 0 (len (listKeysOf (keys b)))) as [Hl | Hl].
    + destruct (llenExecErr b); [left; apply Hskip; reflexivity |].
      apply appendSizes_spec. exact Hacc.
    + assert (Hnil : listKeysOf (keys b) = []).
      { destruct (listKeysOf (keys b)); [reflexivity |].
        unfold len in Hl. simpl in Hl. lia. }
      rewrite Hnil. left. apply Hskip.
      destruct (llenExecErr b); reflexivity.
  - assert (Hnil : keys b = []).
    { destruct (keys b); [reflexivity |]. unfold len in Hk. simpl in Hk. lia. }
    rewrite Hnil. left. apply Hskip.
    destruct (typeExecErr b), (llenExecErr b); reflexivity.
Qed.

(** What the loop returns: nothing and the error when a [SCAN] failed,
    the first [maxLists] entries of the uncapped accumulation otherwise. *)
Lemma scanLoop_spec N script : forall acc lists err,
  len acc < N ->
  scanLoop N script acc = Some (lists, err) ->
  match err with
  | Some _ => lists = []
  | None => lists = firstn (Z.to_nat N) (acc ++ uncappedLists script)
  end.
Proof.
  induction script as [| [e | b] rest IH]; intros acc lists err Hacc Hrun.
  - discriminate Hrun.
  - injection Hrun as <- <-. reflexivity.
  - cbn [scanLoop uncappedLists] in *.
    destruct (processBatch_spec N b acc Hacc) as [[Hp Hlt] | [Hp Hge]];
      rewrite Hp in Hrun.
    + destruct (cursor b =? 0).
      * injection Hrun as <- <-. rewrite app_nil_r.
        symmetry. apply firstn_short. lia.
      * apply IH in Hrun; [| exact Hlt].
        rewrite <- app_assoc in Hrun. exact Hrun.
    + injection Hrun as <- <-.
      rewrite app_assoc. symmetry. apply firstn_app_long. exact Hge.
Qed.

(** On a script that ends, the loop returns. *)
Lemma scanLoop_returns N script : forall acc,
  scriptEnds script = true ->
  exists res, scanLoop N script acc = Some res.
Proof.
  induction script as [| [e | b] rest IH]; intros acc Hend.
  - discriminate Hend.
  - simpl. eauto.
  - cbn [scanLoop]. destruct (processBatch N b acc) as [lists stop].
    destruct stop; [eauto |].
    simpl in Hend. destruct (cursor b =? 0); [eauto |].
    apply IH. exact Hend.
Qed.

(** While every [SCAN] succeeds with a non-zero cursor and the cap is not
    reached, the loop carries the accumulation on to the next round. *)
Lemma scanLoop_prefix N pre : forall acc tail,
  scanContinues pre = true ->
  len (acc ++ uncappedLists pre) < N ->
  scanLoop N (pre ++ tail) acc = scanLoop N tail (acc ++ uncappedLists pre).
Proof.
  induction pre as [| [e | b] rest IH]; intros acc tail Hcont Hlen.
  - simpl. rewrite app_nil_r. reflexivity.
  - discriminate Hcont.
  - cbn [scanContinues] in Hcont.
    apply Bool.andb_true_iff in Hcont as [Hcur Hcont].
    apply Bool.negb_true_iff in Hcur.
    cbn [uncappedLists] in *. rewrite Hcur in *.
    rewrite app_assoc in Hlen.
    assert (Hacc : len acc < N).
    { rewrite !len_app in Hlen.
      pose proof (len_nonneg (batchLists b)).
      pose proof (len_nonneg (uncappedLists rest)). lia. }
    cbn [app scanLoop].
    destruct (processBatch_spec N b acc Hacc) as [[Hp Hlt] | [Hp Hge]];
      rewrite Hp.
    + rewrite Hcur. rewrite IH by assumption.
      rewrite app_assoc. reflexivity.
    + rewrite len_app in Hlen.
      pose proof (len_nonneg (uncappedLists rest)). lia.
Qed.

Lemma in_sizedLists li ks :
  In li (sizedLists ks) ->
  exists k, In k ks /\ keyName k = Name li /\ llenResult k = Ok (Size li).
Proof.
  unfold sizedLists. rewrite in_flat_map. intros (k & Hk & Hin).
  exists k. split; [exact Hk |].
  destruct (llenResult k) as [size | e]; [| contradiction].
  destruct Hin as [<- | []]. auto.
Qed.

Lemma in_listKeysOf k ks :
  In k (listKeysOf ks) -> In k ks /\ typeResult k = Ok "list".
Proof.
  unfold listKeysOf. rewrite filter_In. intros [Hin Hty].
  split; [exact Hin |].
  unfold isListType in Hty.
  destruct (typeResult k) as [t | e]; [| discriminate].
  apply String.eqb_eq in Hty. subst. reflexivity.
Qed.

Lemma in_uncappedLists li script :
  In li (uncappedLists script) -> observedList script (Name li).
Proof.
  induction script as [| [e | b] rest IH]; simpl; intros Hin;
    try contradiction.
  apply in_app_or in Hin. destruct Hin as [Hin | Hin].
  - unfold batchLists in Hin.
    destruct (typeExecErr b) eqn:Ht; [contradiction |].
    destruct (llenExecErr b); [contradiction |].
    apply in_sizedLists in Hin as (k & Hk & Hname & _).
    apply in_listKeysOf in Hk as [Hk Hty].
    exists b, k. simpl. auto 6.
  - destruct (cursor b =? 0); [contradiction |].
    destruct (IH Hin) as (b' & k & Hb & Hrest).
    exists b', k. simpl. auto.
Qed.

(** The older scan. *)
Lemma appendLists_spec N ks : forall acc,
  len acc < N ->
  (Legacy.appendLists N ks acc
     = (acc ++ map keyName (listKeysOf ks), false) /\
   len (acc ++ map keyName (listKeysOf ks)) < N) \/
  (Legacy.appendLists N ks acc
     = (firstn (Z.to_nat N) (acc ++ map keyName (listKeysOf ks)), true) /\
   N <= len (acc ++ map keyName (listKeysOf ks))).
Proof.
  induction ks as [| k ks IH]; intros acc Hacc.
  - left. simpl. rewrite app_nil_r. auto.
  - cbn [Legacy.appendLists listKeysOf filter]. fold (listKeysOf ks).
    unfold isListType.
    destruct (typeResult k) as [t | e]; [| apply IH; exact Hacc].
    destruct (String.eqb t "list"); [| apply IH; exact Hacc].
    cbn [map].
    replace (acc ++ keyName k :: map keyName (listKeysOf ks))
      with ((acc ++ [keyName k]) ++ map keyName (listKeysOf ks))
      by (rewrite <- app_assoc; reflexivity).
    assert (Hlen : len (acc ++ [keyName k]) = len acc + 1)
      by (rewrite len_app; reflexivity).
    destruct (len (acc ++ [keyName k]) >=? N) eqn:Hcap;
      rewrite Z.geb_leb in Hcap.
    + apply Z.leb_le in Hcap. right. split.
      * rewrite firstn_app_long by exact Hcap.
        rewrite firstn_short by lia. reflexivity.
      * rewrite len_app.
        pose proof (len_nonneg (map keyName (listKeysOf ks))). lia.
    + apply Z.leb_gt in Hcap. apply IH. exact Hcap.
Qed.

Lemma Legacy_scanLoop_spec N script : forall acc lists err,
  len acc < N ->
  Legacy.scanLoop N script acc = Some (lists, err) ->
  match err with
  | Some _ => lists = []
  | None => lists = firstn (Z.to_nat N) (acc ++ legacyUncappedLists script)
  end.
Proof.
  induction script as [| [e | b] rest IH]; intros acc lists err Hacc Hrun.
  - discriminate Hrun.
  - injection Hrun as <- <-. reflexivity.
  - cbn [Legacy.scanLoop legacyUncappedLists] in *.
    unfold legacyBatchLists.
    assert (Hbatch :
      ((if 0 <? len (keys b)
        then Legacy.appendLists N (keys b) acc else (acc, false))
         = (acc ++ map keyName (listKeysOf (keys b)), false) /\
       len (acc ++ map keyName (listKeysOf (keys b))) < N) \/
      ((if 0 <? len (keys b)
        then Legacy.appendLists N (keys b) acc else (acc, false))
         = (firstn (Z.to_nat N)
              (acc ++ map keyName (listKeysOf (keys b))), true) /\
       N <= len (acc ++ map keyName (listKeysOf (keys b))))).
    { destruct (keys b) as [| k ks] eqn:Hk.
      - left. simpl. rewrite app_nil_r. auto.
      - replace (0 <? len (k :: ks)) with true
          by (symmetry; apply Z.ltb_lt; unfold len; simpl; lia).
        apply appendLists_spec. exact Hacc. }
    destruct Hbatch as [[Hp Hlt] | [Hp Hge]]; rewrite Hp in Hrun.
    + destruct (cursor b =? 0).
      * injection Hrun as <- <-. rewrite app_nil_r.
        symmetry. apply firstn_short. lia.
      * apply IH in Hrun; [| exact Hlt].
        rewrite <- app_assoc in Hrun. exact Hrun.
    + injection Hrun as <- <-.
      rewrite app_assoc. symmetry. apply firstn_app_long. exact Hge.
Qed.

Lemma Legacy_scanLoop_returns N script : forall acc,
  scriptEnds script = true ->
  exists res, Legacy.scanLoop N script acc = Some res.
Proof.
  induction script as [| [e | b] rest IH]; intros acc Hend.
  - discriminate Hend.
  - simpl. eauto.
  - cbn [Legacy.scanLoop].
    destruct (if 0 <? len (keys b)
              then Legacy.appendLists N (keys b) acc else (acc, false))
      as [lists stop].
    destruct stop; [eauto |].
    simpl in Hend. destruct (cursor b =? 0); [eauto |].
    apply IH. exact Hend.
Qed.

Lemma in_legacyUncappedLists name script :
  In name (legacyUncappedLists script) -> legacyObservedList script name.
Proof.
  induction script as [| [e | b] rest IH]; simpl; intros Hin;
    try contradiction.
  apply in_app_or in Hin. destruct Hin as [Hin | Hin].
  - unfold legacyBatchLists in Hin. apply in_map_iff in Hin.
    destruct Hin as (k & Hname & Hk).
    apply in_listKeysOf in Hk as [Hk Hty].
    exists b, k. simpl. auto.
  - destruct (cursor b =? 0); [contradiction |].
    destruct (IH Hin) as (b' & k & Hb & Hrest).
    exists b', k. simpl. auto.
Qed.

Lemma Forall_firstn {A} (P : A -> Prop) n (l : list A) :
  Forall P l -> Forall P (firstn n l).
Proof.
  intros H. rewrite <- (firstn_skipn n l) in H.
  apply Forall_app in H. apply H.
Qed.

(** The loop computes [scanResult]: it returns the first [N] entries as
    soon as the accumulation holds [N], without looking at what follows. *)
Lemma scanLoop_eq N script : forall acc,
  len acc < N ->
  scanLoop N script acc
    = scanResult N (acc ++ uncappedLists script) (scanEnd script).
Proof.
  unfold scanResult.
  induction script as [| [e | b] rest IH]; intros acc Hacc.
  - cbn [scanLoop uncappedLists scanEnd]. rewrite app_nil_r.
    destruct (Z.leb_spec N (len acc)); [lia | reflexivity].
  - cbn [scanLoop uncappedLists scanEnd]. rewrite app_nil_r.
    destruct (Z.leb_spec N (len acc)); [lia | reflexivity].
  - cbn [scanLoop uncappedLists scanEnd]. rewrite app_assoc.
    destruct (processBatch_spec N b acc Hacc) as [[Hp Hlt] | [Hp Hge]];
      rewrite Hp.
    + destruct (cursor b =? 0).
      * rewrite app_nil_r.
        destruct (Z.leb_spec N (len (acc ++ batchLists b))); [lia | reflexivity].
      * apply IH. exact Hlt.
    + destruct (Z.leb_spec N
                  (len ((acc ++ batchLists b)
                          ++ (if cursor b =? 0 then [] else uncappedLists rest))));
        [rewrite (firstn_app_long N (acc ++ batchLists b) _ Hge); reflexivity |].
      rewrite !len_app in *.
      pose proof (len_nonneg (if cursor b =? 0 then [] else uncappedLists rest)).
      lia.
Qed.

Lemma Legacy_scanLoop_eq N script : forall acc,
  len acc < N ->
  Legacy.scanLoop N script acc
    = scanResult N (acc ++ legacyUncappedLists script) (scanEnd script).
Proof.
  unfold scanResult.
  induction script as [| [e | b] rest IH]; intros acc Hacc.
  - cbn [Legacy.scanLoop legacyUncappedLists scanEnd]. rewrite app_nil_r.
    destruct (Z.leb_spec N (len acc)); [lia | reflexivity].
  - cbn [Legacy.scanLoop legacyUncappedLists scanEnd]. rewrite app_nil_r.
    destruct (Z.leb_spec N (len acc)); [lia | reflexivity].
  - cbn [Legacy.scanLoop legacyUncappedLists scanEnd]. rewrite app_assoc.
    unfold legacyBatchLists.
    assert (Hbatch :
      ((if 0 <? len (keys b)
        then Legacy.appendLists N (keys b) acc else (acc, false))
         = (acc ++ map keyName (listKeysOf (keys b)), false) /\
       len (acc ++ map keyName (listKeysOf (keys b))) < N) \/
      ((if 0 <? len (keys b)
        then Legacy.appendLists N (keys b) acc else (acc, false))
         = (firstn (Z.to_nat N)
              (acc ++ map keyName (listKeysOf (keys b))), true) /\
       N <= len (acc ++ map keyName (listKeysOf (keys b))))).
    { destruct (keys b) as [| k ks] eqn:Hk.
      - left. simpl. rewrite app_nil_r. auto.
      - replace (0 <? len (k :: ks)) with true
          by (symmetry; apply Z.ltb_lt; unfold len; simpl; lia).
        apply appendLists_spec. exact Hacc. }
    destruct Hbatch as [[Hp Hlt] | [Hp Hge]]; rewrite Hp.
    + destruct (cursor b =? 0).
      * rewrite app_nil_r.
        destruct (Z.leb_spec N (len (acc ++ map keyName (listKeysOf (keys b)))));
          [lia | reflexivity].
      * apply IH. exact Hlt.
    + destruct (Z.leb_spec N
                  (len ((acc ++ map keyName (listKeysOf (keys b)))
                          ++ (if cursor b =? 0 then []
                              else legacyUncappedLists rest))));
        [rewrite (firstn_app_long N (acc ++ map keyName (listKeysOf (keys b)))
                   _ Hge); reflexivity |].
      rewrite !len_app in *.
      pose proof (len_nonneg (if cursor b =? 0 then []
                              else legacyUncappedLists rest)).
      lia.
Qed.

Lemma uncappedLists_app pre rest :
  exists tail, uncappedLists (pre ++ rest) = uncappedLists pre ++ tail.
Proof.
  induction pre as [| [e | b] pre [tail IH]].
  - exists (uncappedLists rest). reflexivity.
  - exists []. reflexivity.
  - cbn [app uncappedLists]. destruct (cursor b =? 0).
    + exists []. rewrite !app_nil_r. reflexivity.
    + exists tail. rewrite IH, app_assoc. reflexivity.
Qed.

Lemma legacyUncappedLists_app pre rest :
  exists tail,
    legacyUncappedLists (pre ++ rest) = legacyUncappedLists pre ++ tail.
Proof.
  induction pre as [| [e | b] pre [tail IH]].
  - exists (legacyUncappedLists rest). reflexivity.
  - exists []. reflexivity.
  - cbn [app legacyUncappedLists]. destruct (cursor b =? 0).
    + exists []. rewrite !app_nil_r. reflexivity.
    + exists tail. rewrite IH, app_assoc. reflexivity.
Qed.

Lemma scanResult_at_cap {A} N (all tail : list A) ending :
  0 < N -> N <= len all ->
  scanResult N (all ++ tail) ending = Some (firstn (Z.to_nat N) all, None) /\
  len (firstn (Z.to_nat N) all) = N.
Proof.
  intros Hpos Hcap. unfold scanResult. split.
  - destruct (Z.leb_spec N (len (all ++ tail))) as [_ | Hlt].
    + rewrite firstn_app_long by exact Hcap. reflexivity.
    + rewrite len_app in Hlt. pose proof (len_nonneg tail). lia.
  - rewrite len_firstn by lia. lia.
Qed.

(** C4. With a positive [maxLists] the scan computes [scanResult]: as soon
    as the accumulation holds [maxLists] entries it returns exactly those,
    in the middle of a batch too and whatever the store would answer next
    (a failed [SCAN] included); so it never returns more than [maxLists]
    entries.  Every entry is a key that the batched type check observed as
    a list, and on a script that ends the scan returns.  The older scan has
    the same properties. *)
Theorem getAvailableLists_at_most_maxLists cfg script :
  0 < maxLists cfg ->
  (getAvailableLists cfg script
     = scanResult (maxLists cfg) (uncappedLists script) (scanEnd script) /\
   (forall pre rest,
      script = pre ++ rest ->
      maxLists cfg <= len (uncappedLists pre) ->
      getAvailableLists cfg script
        = Some (firstn (Z.to_nat (maxLists cfg)) (uncappedLists pre), None) /\
      len (firstn (Z.to_nat (maxLists cfg)) (uncappedLists pre)) = maxLists cfg) /\
   (scriptEnds script = true ->
      exists res, getAvailableLists cfg script = Some res) /\
   (forall lists err,
      getAvailableLists cfg script = Some (lists, err) ->
      len lists <= maxLists cfg /\
      (err = None ->
         lists = firstn (Z.to_nat (maxLists cfg)) (uncappedLists script)) /\
      Forall (fun li => observedList script (Name li)) lists)) /\
  (Legacy.getAvailableLists (maxLists cfg) script
     = scanResult (maxLists cfg) (legacyUncappedLists script) (scanEnd script) /\
   (forall pre rest,
      script = pre ++ rest ->
      maxLists cfg <= len (legacyUncappedLists pre) ->
      Legacy.getAvailableLists (maxLists cfg) script
        = Some (firstn (Z.to_nat (maxLists cfg)) (legacyUncappedLists pre), None) /\
      len (firstn (Z.to_nat (maxLists cfg)) (legacyUncappedLists pre))
        = maxLists cfg) /\
   (scriptEnds script = true ->
      exists res, Legacy.getAvailableLists (maxLists cfg) script = Some res) /\
   (forall lists err,
      Legacy.getAvailableLists (maxLists cfg) script = Some (lists, err) ->
      len lists <= maxLists cfg /\
      (err = None ->
         lists = firstn (Z.to_nat (maxLists cfg)) (legacyUncappedLists script)) /\
      Forall (legacyObservedList script) lists)).
Proof.
  intros Hpos.
  assert (Hnil : forall A, len (@nil A) < maxLists cfg) by (intros; exact Hpos).
  assert (Heq : getAvailableLists cfg script
                = scanResult (maxLists cfg) (uncappedLists script) (scanEnd script)).
  { unfold getAvailableLists. rewrite scanLoop_eq by apply Hnil. reflexivity. }
  assert (Heq' : Legacy.getAvailableLists (maxLists cfg) script
                 = scanResult (maxLists cfg) (legacyUncappedLists script)
                     (scanEnd script)).
  { unfold Legacy.getAvailableLists.
    rewrite Legacy_scanLoop_eq by apply Hnil. reflexivity. }
  split; (split; [assumption |]); (split; [| split]).
  - intros pre rest -> Hcap. rewrite Heq.
    destruct (uncappedLists_app pre rest) as [tail ->].
    apply scanResult_at_cap; assumption.
  - apply scanLoop_returns.
  - intros lists err Hrun.
    apply scanLoop_spec in Hrun; [| apply Hnil].
    destruct err as [e |]; subst lists.
    + split; [unfold len; simpl; lia |]. split; [discriminate | constructor].
    + cbn [app]. split; [| split; [reflexivity |]].
      * rewrite len_firstn by lia. lia.
      * apply Forall_firstn. apply Forall_forall.
        intros li. apply in_uncappedLists.
  - intros pre rest -> Hcap. rewrite Heq'.
    destruct (legacyUncappedLists_app pre rest) as [tail ->].
    apply scanResult_at_cap; assumption.
  - apply Legacy_scanLoop_returns.
  - intros lists err Hrun.
    apply Legacy_scanLoop_spec in Hrun; [| apply Hnil].
    destruct err as [e |]; subst lists.
    + split; [unfold len; simpl; lia |]. split; [discriminate | constructor].
    + cbn [app]. split; [| split; [reflexivity |]].
      * rewrite len_firstn by lia. lia.
      * apply Forall_firstn. apply Forall_forall.
        intros name. apply in_legacyUncappedLists.
Qed.

Lemma Legacy_scanLoop_prefix N pre : forall acc tail,
  scanContinues pre = true ->
  len (acc ++ legacyUncappedLists pre) < N ->
  Legacy.scanLoop N (pre ++ tail) acc
    = Legacy.scanLoop N tail (acc ++ legacyUncappedLists pre).
Proof.
  induction pre as [| [e | b] rest IH]; intros acc tail Hcont Hlen.
  - simpl. rewrite app_nil_r. reflexivity.
  - discriminate Hcont.
  - cbn [scanContinues] in Hcont.
    apply Bool.andb_true_iff in Hcont as [Hcur Hcont].
    apply Bool.negb_true_iff in Hcur.
    cbn [legacyUncappedLists] in *. rewrite Hcur in *.
    rewrite app_assoc in Hlen. unfold legacyBatchLists in *.
    assert (Hacc : len acc < N).
    { rewrite !len_app in Hlen.
      pose proof (len_nonneg (map keyName (listKeysOf (keys b)))).
      pose proof (len_nonneg (legacyUncappedLists rest)). lia. }
    assert (Hhere : len (acc ++ map keyName (listKeysOf (keys b))) < N).
    { rewrite len_app in Hlen.
      pose proof (len_nonneg (legacyUncappedLists rest)). lia. }
    cbn [app Legacy.scanLoop].
    assert (Hbatch :
      (if 0 <? len (keys b)
       then Legacy.appendLists N (keys b) acc else (acc, false))
        = (acc ++ map keyName (listKeysOf (keys b)), false)).
    { destruct (keys b) as [| k ks] eqn:Hk.
      - simpl. rewrite app_nil_r. reflexivity.
      - replace (0 <? len (k :: ks)) with true
          by (symmetry; apply Z.ltb_lt; unfold len; simpl; lia).
        destruct (appendLists_spec N (k :: ks) acc Hacc)
          as [[Hp _] | [_ Hge]]; [exact Hp | lia]. }
    rewrite Hbatch, Hcur. rewrite IH by assumption.
    rewrite app_assoc. reflexivity.
Qed.

Lemma indexHandler_renders cfg script r lists err :
  Path r = "/" ->
  getAvailableLists cfg script = Some (lists, err) ->
  indexHandler cfg script r = Some (IndexPage lists).
Proof.
  intros Hpath Hrun. unfold indexHandler.
  rewrite Hpath, Hrun. reflexivity.
Qed.

(** C7, as the code has it.  When a [SCAN] fails in the middle of the
    discovery (every earlier [SCAN] went on and the cap was not reached),
    the scan aborts, drops what it had accumulated and returns the empty
    list together with the error; [indexHandler] ignores the error and
    renders the page with that empty list.  The older scan does the same
    when it reaches the failed [SCAN] under its own cap. *)
Theorem getAvailableLists_scan_failure cfg pre (err : error) rest r :
  scanContinues pre = true ->
  len (uncappedLists pre) < maxLists cfg ->
  Path r = "/" ->
  getAvailableLists cfg (pre ++ ScanErr err :: rest) = Some ([], Some err) /\
  indexHandler cfg (pre ++ ScanErr err :: rest) r = Some (IndexPage []) /\
  (len (legacyUncappedLists pre) < maxLists cfg ->
   Legacy.getAvailableLists (maxLists cfg) (pre ++ ScanErr err :: rest)
     = Some ([], Some err)).
Proof.
  intros Hcont Hlen Hpath.
  assert (Hrun : getAvailableLists cfg (pre ++ ScanErr err :: rest)
                 = Some ([], Some err)).
  { unfold getAvailableLists.
    rewrite scanLoop_prefix by assumption. reflexivity. }
  split; [exact Hrun |]. split.
  - eapply indexHandler_renders; eassumption.
  - intros Hlegacy. unfold Legacy.getAvailableLists.
    rewrite Legacy_scanLoop_prefix by assumption. reflexivity.
Qed.

(** C7, as stated, fails: after one batch that holds the list [mylist], a
    failed [SCAN] makes the scan return no list and the error, not the
    accumulated entry. *)
Lemma getAvailableLists_drops_accumulated_lists :
  uncappedLists failingScript = [{| Name := "mylist"; Size := 3 |}] /\
  getAvailableLists defaultConfig failingScript
    = Some ([], Some "connection reset by peer") /\
  getAvailableLists defaultConfig failingScript
    <> Some ([{| Name := "mylist"; Size := 3 |}], None) /\
  Legacy.getAvailableLists 10 failingScript
    = Some ([], Some "connection reset by peer").
Proof.
  split; [reflexivity |]. split; [reflexivity |].
  split; [discriminate | reflexivity].
Qed.

End ScanFacts.

(** ** The scripts of the result pages *)

Module PagingFacts.

Lemma navigateWithPreload_cases key maxIndex allValues currentIndex delta :
  0 <= currentIndex <= maxIndex ->
  delta = 1 \/ delta = -1 ->
  (delta = -1 /\ currentIndex = 0 /\
   navigateWithPreload key maxIndex allValues currentIndex delta
     = Load (lindexRequestNoIndex key)) \/
  (exists newIndex,
     newIndex = (currentIndex + delta) mod (maxIndex + 1) /\
     (0 <= currentIndex + delta /\ 0 <= newIndex <= maxIndex) /\
     navigateWithPreload key maxIndex allValues currentIndex delta
       = Update newIndex (element allValues newIndex)
           (lindexRequest key (strconv.FormatInt newIndex))).
Proof.
  intros Hcur Hdelta. unfold navigateWithPreload.
  destruct (Z.ltb_spec (currentIndex + delta) 0) as [Hneg | Hpos].
  - left. repeat split; try lia.
  - right.
    destruct (Z.ltb_spec maxIndex (currentIndex + delta)) as [Hbig | Hsmall].
    + exists 0. split; [| split; [lia | reflexivity]].
      apply (Z.mod_unique _ _ 1); lia.
    + exists (currentIndex + delta). split; [| split; [lia | reflexivity]].
      symmetry. apply Z.mod_small. lia.
Qed.

Lemma keydown_cases (navigate : Z -> Action) eventKey :
  keydown navigate eventKey = navigate (-1) \/
  keydown navigate eventKey = navigate 1 \/
  keydown navigate eventKey = Stay.
Proof.
  unfold keydown.
  destruct (String.eqb eventKey "ArrowLeft" || String.eqb eventKey "Left");
    [auto |].
  destruct (String.eqb eventKey "ArrowRight" || String.eqb eventKey "Right");
    auto.
Qed.

(** X9. Whatever keys are pressed on a preloaded page, the index the page
    holds stays within [0, maxIndex]; the only way the page is left is the
    reload without index. *)
Theorem browse_stays_on_list key maxIndex allValues eventKeys :
  forall currentIndex,
    0 <= currentIndex <= maxIndex ->
    match browse key maxIndex allValues currentIndex eventKeys with
    | inl index => 0 <= index <= maxIndex
    | inr r => r = lindexRequestNoIndex key
    end.
Proof.
  induction eventKeys as [| eventKey rest IH]; intros currentIndex Hcur.
  - exact Hcur.
  - cbn [browse].
    destruct (keydown_cases
                (navigateWithPreload key maxIndex allValues currentIndex) eventKey)
      as [-> | [-> | ->]]; [| | apply IH; exact Hcur].
    + destruct (navigateWithPreload_cases key maxIndex allValues currentIndex (-1)
                  Hcur ltac:(auto))
        as [(_ & _ & ->) | (n & _ & [_ Hn] & ->)];
        [reflexivity | apply IH; exact Hn].
    + destruct (navigateWithPreload_cases key maxIndex allValues currentIndex 1
                  Hcur ltac:(auto))
        as [(_ & _ & ->) | (n & _ & [_ Hn] & ->)];
        [reflexivity | apply IH; exact Hn].
Qed.

(** X10. On a preloaded page Newer walks the list as a cycle and Older as a
    line: [n] presses of the right arrow lead to
    [(currentIndex + n) mod (maxIndex + 1)], so [maxIndex + 1] presses come
    back to the start; [n] presses of the left arrow lead to
    [currentIndex - n] as long as [n <= currentIndex], and one press more
    reloads the page. *)
Theorem browse_closed_form key maxIndex allValues (n : nat) :
  forall currentIndex,
    0 <= currentIndex <= maxIndex ->
    browse key maxIndex allValues currentIndex (repeat "ArrowRight" n)
      = inl ((currentIndex + Z.of_nat n) mod (maxIndex + 1)) /\
    browse key maxIndex allValues currentIndex (repeat "ArrowLeft" n)
      = if Z.of_nat n <=? currentIndex then inl (currentIndex - Z.of_nat n)
        else inr (lindexRequestNoIndex key).
Proof.
  induction n as [| n IH]; intros currentIndex Hcur.
  - cbn [repeat browse]. split.
    + rewrite Z.add_0_r, Z.mod_small by lia. reflexivity.
    + destruct (Z.leb_spec (Z.of_nat 0) currentIndex); [| lia].
      f_equal. lia.
  - cbn [repeat browse]. split.
    + change (keydown (navigateWithPreload key maxIndex allValues currentIndex)
                "ArrowRight")
        with (navigateWithPreload key maxIndex allValues currentIndex 1).
      destruct (navigateWithPreload_cases key maxIndex allValues currentIndex 1
                  Hcur ltac:(auto))
        as [(Hd & _) | (m & Hm & [_ Hrange] & ->)]; [discriminate Hd |].
      destruct (IH m Hrange) as [-> _]. f_equal. subst m.
      rewrite Zplus_mod_idemp_l. f_equal. lia.
    + change (keydown (navigateWithPreload key maxIndex allValues currentIndex)
                "ArrowLeft")
        with (navigateWithPreload key maxIndex allValues currentIndex (-1)).
      destruct (navigateWithPreload_cases key maxIndex allValues currentIndex (-1)
                  Hcur ltac:(auto))
        as [(_ & H0 & ->) | (m & Hm & [Hpos Hrange] & ->)].
      * destruct (Z.leb_spec (Z.of_nat (S n)) currentIndex); [lia | reflexivity].
      * destruct (IH m Hrange) as [_ ->].
        assert (Hm' : m = currentIndex - 1).
        { subst m. apply Z.mod_small. lia. }
        rewrite Hm'.
        destruct (Z.leb_spec (Z.of_nat n) (currentIndex - 1));
          destruct (Z.leb_spec (Z.of_nat (S n)) currentIndex);
          try lia; [f_equal; lia | reflexivity].
Qed.

End PagingFacts.

(** ** Further properties of the discovery scan *)

Module ScanProperties.

Import ScanFacts.
Local Open Scope list_scope.

Lemma scanLoop_ignores_rest N pre : forall acc res rest,
  scanLoop N pre acc = Some res ->
  scanLoop N (pre ++ rest) acc = Some res.
Proof.
  induction pre as [| [e | b] pre IH]; intros acc res rest Hrun.
  - discriminate Hrun.
  - exact Hrun.
  - cbn [app scanLoop] in *.
    destruct (processBatch N b acc) as [lists stop].
    destruct stop; [exact Hrun |].
    destruct (cursor b =? 0); [exact Hrun |].
    apply IH. exact Hrun.
Qed.

Lemma Legacy_scanLoop_ignores_rest N pre : forall acc res rest,
  Legacy.scanLoop N pre acc = Some res ->
  Legacy.scanLoop N (pre ++ rest) acc = Some res.
Proof.
  induction pre as [| [e | b] pre IH]; intros acc res rest Hrun.
  - discriminate Hrun.
  - exact Hrun.
  - cbn [app Legacy.scanLoop] in *.
    destruct (if 0 <? len (keys b)
              then Legacy.appendLists N (keys b) acc else (acc, false))
      as [lists stop].
    destruct stop; [exact Hrun |].
    destruct (cursor b =? 0); [exact Hrun |].
    apply IH. exact Hrun.
Qed.

(** X11. The scan returns exactly at the first reply that stops it, and
    reads nothing after it.  After replies that all carry a non-zero cursor
    and leave the accumulation under the cap the loop is still running; a
    failed [SCAN] then makes it return the empty list and the error; a
    batch with the zero cursor, or one that brings the accumulation to the
    cap, makes it return the first [maxLists] entries; in both cases
    whatever replies would follow; and a batch that does neither leaves the
    loop running. *)
Theorem getAvailableLists_returns_at_first_stop cfg pre :
  scanContinues pre = true ->
  len (uncappedLists pre) < maxLists cfg ->
  getAvailableLists cfg pre = None /\
  (forall err rest,
     getAvailableLists cfg (pre ++ ScanErr err :: rest) = Some ([], Some err)) /\
  (forall b rest,
     cursor b = 0 \/ maxLists cfg <= len (uncappedLists pre ++ batchLists b) ->
     getAvailableLists cfg (pre ++ ScanOk b :: rest)
       = Some (firstn (Z.to_nat (maxLists cfg))
                 (uncappedLists pre ++ batchLists b), None)) /\
  (forall b,
     cursor b <> 0 ->
     len (uncappedLists pre ++ batchLists b) < maxLists cfg ->
     getAvailableLists cfg (pre ++ [ScanOk b]) = None).
Proof.
  intros Hcont Hlen. unfold getAvailableLists.
  assert (Hrun : forall tail,
            scanLoop (maxLists cfg) (pre ++ tail) []
              = scanLoop (maxLists cfg) tail (uncappedLists pre)).
  { intros tail. rewrite scanLoop_prefix by assumption. reflexivity. }
  split; [| split; [| split]].
  - rewrite <- (app_nil_r pre) at 1. rewrite Hrun. reflexivity.
  - intros err rest. rewrite Hrun. reflexivity.
  - intros b rest Hstop. rewrite Hrun. cbn [scanLoop].
    destruct (processBatch_spec (maxLists cfg) b (uncappedLists pre) Hlen)
      as [[Hp Hlt] | [Hp Hge]]; rewrite Hp.
    + destruct Hstop as [Hzero | Hcap]; [| lia].
      rewrite Hzero. cbn [Z.eqb]. rewrite firstn_short by lia. reflexivity.
    + reflexivity.
  - intros b Hcur Hunder. rewrite Hrun. cbn [scanLoop].
    destruct (processBatch_spec (maxLists cfg) b (uncappedLists pre) Hlen)
      as [[Hp Hlt] | [Hp Hge]]; rewrite Hp; [| lia].
    apply Z.eqb_neq in Hcur. rewrite Hcur. reflexivity.
Qed.

Lemma completes_no_error N script : forall acc lists err,
  completes script = true ->
  scanLoop N script acc = Some (lists, err) ->
  err = None.
Proof.
  induction script as [| [e | b] rest IH]; intros acc lists err Hc Hrun.
  - discriminate Hc.
  - discriminate Hc.
  - cbn [scanLoop] in Hrun.
    destruct (processBatch N b acc) as [lists' stop].
    destruct stop; [injection Hrun as _ <-; reflexivity |].
    destruct (cursor b =? 0) eqn:Hcur; [injection Hrun as _ <-; reflexivity |].
    cbn [completes] in Hc. destruct rest as [| reply rest'].
    + discriminate Hrun.
    + rewrite Hcur in Hc. simpl in Hc. eapply IH; eassumption.
Qed.

Lemma in_batch_uncappedLists script : forall b li,
  completes script = true ->
  In (ScanOk b) script ->
  In li (batchLists b) ->
  In li (uncappedLists script).
Proof.
  induction script as [| [e | b0] rest IH]; intros b li Hc Hb Hli.
  - contradiction.
  - discriminate Hc.
  - cbn [uncappedLists]. apply in_or_app.
    destruct Hb as [Hb | Hb].
    + injection Hb as ->. left. exact Hli.
    + right. cbn [completes] in Hc.
      destruct rest as [| reply rest']; [contradiction |].
      apply Bool.andb_true_iff in Hc as [Hcur Hc].
      apply Bool.negb_true_iff in Hcur. rewrite Hcur.
      eapply IH; eassumption.
Qed.

Lemma in_batchLists b k size :
  typeExecErr b = None ->
  llenExecErr b = None ->
  In k (keys b) ->
  typeResult k = Ok "list" ->
  llenResult k = Ok size ->
  In {| Name := keyName k; Size := size |} (batchLists b).
Proof.
  intros Ht Hl Hk Hty Hsize. unfold batchLists. rewrite Ht, Hl.
  unfold sizedLists. apply in_flat_map. exists k. split.
  - unfold listKeysOf. apply filter_In. split; [exact Hk |].
    unfold isListType. rewrite Hty. reflexivity.
  - rewrite Hsize. left. reflexivity.
Qed.

(** X12. Discovery is complete under the cap: when the scan runs to the end
    of the keyspace and returns fewer than [maxLists] entries, it returns no
    error and every key that a successful type pipeline observed as a list
    and a successful length pipeline sized is in the result, with that
    size. *)
Theorem getAvailableLists_misses_no_list cfg script lists err :
  completes script = true ->
  getAvailableLists cfg script = Some (lists, err) ->
  len lists < maxLists cfg ->
  err = None /\
  forall b k size,
    In (ScanOk b) script ->
    typeExecErr b = None -> llenExecErr b = None ->
    In k (keys b) ->
    typeResult k = Ok "list" -> llenResult k = Ok size ->
    In {| Name := keyName k; Size := size |} lists.
Proof.
  intros Hc Hrun Hlen.
  pose proof (completes_no_error _ _ _ _ _ Hc Hrun) as ->.
  split; [reflexivity |].
  assert (Hpos : 0 < maxLists cfg) by (pose proof (len_nonneg lists); lia).
  apply scanLoop_spec in Hrun; [| exact Hpos]. cbn [app] in Hrun.
  assert (Hall : lists = uncappedLists script).
  { rewrite Hrun. apply firstn_short.
    rewrite Hrun, len_firstn in Hlen by lia. lia. }
  intros b k size Hb Ht Hl Hk Hty Hsize. rewrite Hall.
  eapply in_batch_uncappedLists; [exact Hc | exact Hb |].
  apply in_batchLists; assumption.
Qed.

(** X13. Raising [MAX_LISTS] only appends entries: of two scans of the same
    replies that both return without error, the one with the smaller cap
    returns the first entries of the other. *)
Theorem getAvailableLists_monotone cfg cfg' script lists lists' :
  0 < maxLists cfg <= maxLists cfg' ->
  getAvailableLists cfg script = Some (lists, None) ->
  getAvailableLists cfg' script = Some (lists', None) ->
  lists = firstn (Z.to_nat (maxLists cfg)) lists'.
Proof.
  intros Hcap Hrun Hrun'.
  apply scanLoop_spec in Hrun; [| unfold len; simpl; lia].
  apply scanLoop_spec in Hrun'; [| unfold len; simpl; lia].
  cbn [app] in *. rewrite Hrun, Hrun', firstn_firstn.
  f_equal. lia.
Qed.

Lemma processBatch_failed_pipeline N b acc :
  typeExecErr b <> None \/ llenExecErr b <> None ->
  processBatch N b acc = (acc, false).
Proof.
  intros Herr. unfold processBatch.
  destruct (0 <? len (keys b)); [| reflexivity].
  destruct (typeExecErr b); [reflexivity |].
  destruct (0 <? len (listKeysOf (keys b))); [| reflexivity].
  destruct (llenExecErr b); [reflexivity |].
  destruct Herr as [H | H]; contradiction.
Qed.

Lemma scanLoop_skips_batch N pre b rest : forall acc,
  typeExecErr b <> None \/ llenExecErr b <> None ->
  cursor b <> 0 ->
  scanLoop N (pre ++ ScanOk b :: rest) acc = scanLoop N (pre ++ rest) acc.
Proof.
  intros acc Herr Hcur. revert acc.
  induction pre as [| [e | b0] pre IH]; intros acc.
  - cbn [app scanLoop].
    rewrite processBatch_failed_pipeline by exact Herr.
    apply Z.eqb_neq in Hcur. rewrite Hcur. reflexivity.
  - reflexivity.
  - cbn [app scanLoop].
    destruct (processBatch N b0 acc) as [lists stop].
    destruct stop; [reflexivity |].
    destruct (cursor b0 =? 0); [reflexivity |].
    apply IH.
Qed.

(** X14. A batch whose type pipeline or length pipeline failed is skipped
    and the scan goes on: the result is the one the scan would return had
    the store not sent that batch at all. *)
Theorem getAvailableLists_skips_failed_batch cfg pre b rest :
  typeExecErr b <> None \/ llenExecErr b <> None ->
  cursor b <> 0 ->
  getAvailableLists cfg (pre ++ ScanOk b :: rest)
    = getAvailableLists cfg (pre ++ rest).
Proof.
  intros Herr Hcur. unfold getAvailableLists.
  apply scanLoop_skips_batch; assumption.
Qed.

Lemma in_uncappedLists_sized li script :
  In li (uncappedLists script) -> sizedList script li.
Proof.
  induction script as [| [e | b] rest IH]; simpl; intros Hin;
    try contradiction.
  apply in_app_or in Hin. destruct Hin as [Hin | Hin].
  - unfold batchLists in Hin.
    destruct (typeExecErr b) eqn:Ht; [contradiction |].
    destruct (llenExecErr b) eqn:Hl; [contradiction |].
    apply in_sizedLists in Hin as (k & Hk & Hname & Hsize).
    apply in_listKeysOf in Hk as [Hk Hty].
    exists b, k. simpl. auto 8.
  - destruct (cursor b =? 0); [contradiction |].
    destruct (IH Hin) as (b' & k & Hb & Hrest).
    exists b', k. simpl. auto.
Qed.

(** X15. The size shown for a list is the reply of its own [LLEN]: every
    entry of the result names a key of a round whose two pipelines both
    succeeded, whose type reply was "list" and whose length reply is the
    size of the entry. *)
Theorem getAvailableLists_sizes_are_replies cfg script lists err :
  0 < maxLists cfg ->
  getAvailableLists cfg script = Some (lists, err) ->
  Forall (sizedList script) lists.
Proof.
  intros Hpos Hrun.
  apply scanLoop_spec in Hrun; [| exact Hpos].
  destruct err as [e |]; subst lists; [constructor |].
  cbn [app]. apply Forall_firstn. apply Forall_forall.
  intros li. apply in_uncappedLists_sized.
Qed.

End ScanProperties.

(** ** Start-up configuration *)

Module ConfigFacts.

Import ScanFacts.

(** X16. Whatever the environment holds, the cap on the index page is a
    positive [int]: it is the integer [MAX_LISTS] denotes when that is a
    numeral between 1 and the largest [int], and the default 10 otherwise;
    the preload threshold is 1000 in every environment. *)
Theorem configure_thresholds (Getenv : string -> string) :
  0 < maxLists (configure Getenv) <= maxInt64 /\
  maxLists (configure Getenv) =
    match strconv.numeral_value (Getenv "MAX_LISTS") with
    | Some i => if (1 <=? i) && (i <=? maxInt64) then i else 10
    | None => 10
    end /\
  maxPreloadSize (configure Getenv) = 1000.
Proof.
  assert (Heq : maxLists (configure Getenv) =
    match strconv.numeral_value (Getenv "MAX_LISTS") with
    | Some i => if (1 <=? i) && (i <=? maxInt64) then i else 10
    | None => 10
    end).
  { unfold configure, Atoi. cbn [maxLists defaultConfig].
    rewrite strconv_facts.ParseInt_spec.
    destruct (Getenv "MAX_LISTS") as [| c rest] eqn:Henv; [reflexivity |].
    cbn [String.eqb negb].
    destruct (strconv.numeral_value (String c rest)) as [i |]; [| reflexivity].
    unfold minInt64, maxInt64.
    destruct (Z.leb_spec (- 2 ^ 63) i); destruct (Z.leb_spec i (2 ^ 63 - 1));
      destruct (Z.leb_spec 1 i); cbn [andb]; try reflexivity;
      try (destruct (Z.ltb_spec 0 i); try reflexivity; lia); lia. }
  split; [| split; [exact Heq | reflexivity]].
  rewrite Heq.
  destruct (strconv.numeral_value (Getenv "MAX_LISTS")) as [i |];
    [| unfold maxInt64; lia].
  destruct (Z.leb_spec 1 i); destruct (Z.leb_spec i maxInt64); cbn [andb];
    unfold maxInt64 in *; lia.
Qed.

Lemma configure_maxLists_positive Getenv : 0 < maxLists (configure Getenv).
Proof.
  unfold configure, Atoi. cbn [maxLists defaultConfig].
  destruct (negb (String.eqb (Getenv "MAX_LISTS") "")); [| lia].
  destruct (strconv.ParseInt (Getenv "MAX_LISTS")) as [ml |]; [| lia].
  destruct (Z.ltb_spec 0 ml); lia.
Qed.

(** X17. Under every environment the index page is served whatever the
    store answers: on a script that ends, a request for [/] gets the page
    with at most the configured number of lists (a failed scan gives the
    empty page), and a request for any other path gets 404 without a single
    store reply being read. *)
Theorem indexHandler_always_serves Getenv script r :
  scriptEnds script = true ->
  (Path r = "/" ->
     exists lists,
       indexHandler (configure Getenv) script r = Some (IndexPage lists) /\
       len lists <= maxLists (configure Getenv)) /\
  (Path r <> "/" ->
     indexHandler (configure Getenv) [] r = Some HttpNotFound /\
     indexHandler (configure Getenv) script r = Some HttpNotFound).
Proof.
  intros Hend. split.
  - intros Hpath.
    destruct (scanLoop_returns (maxLists (configure Getenv)) script [] Hend)
      as [[lists err] Hrun].
    exists lists. split.
    + eapply indexHandler_renders; eassumption.
    + pose proof (configure_maxLists_positive Getenv) as Hpos.
      apply scanLoop_spec in Hrun; [| exact Hpos].
      destruct err as [e |]; subst lists.
      * change (0 <= maxLists (configure Getenv)). lia.
      * rewrite len_firstn by lia. lia.
  - intros Hpath. apply String.eqb_neq in Hpath.
    unfold indexHandler. rewrite Hpath. auto.
Qed.

End ConfigFacts.

(** ** The definitions at work *)

Module Examples.

Import LiteralJSON.

Example ParseInt_42 : strconv.ParseInt "42" = Some 42.
Proof. reflexivity. Qed.

Example ParseInt_plus : strconv.ParseInt "+7" = Some 7.
Proof. reflexivity. Qed.

Example ParseInt_empty : strconv.ParseInt "" = None.
Proof. reflexivity. Qed.

Example ParseInt_sign_only : strconv.ParseInt "-" = None.
Proof. reflexivity. Qed.

Example ParseInt_junk : strconv.ParseInt "12a" = None.
Proof. reflexivity. Qed.

Example ParseInt_max : strconv.ParseInt "9223372036854775807" = Some maxInt64.
Proof. vm_compute. reflexivity. Qed.

Example ParseInt_above_max : strconv.ParseInt "9223372036854775808" = None.
Proof. vm_compute. reflexivity. Qed.

Example ParseInt_min : strconv.ParseInt "-9223372036854775808" = Some minInt64.
Proof. vm_compute. reflexivity. Qed.

Example ParseInt_huge : strconv.ParseInt "99999999999999999999999" = None.
Proof. vm_compute. reflexivity. Qed.

Example FormatInt_negative : strconv.FormatInt (-1203) = "-1203".
Proof. reflexivity. Qed.

Example FormatInt_zero : strconv.FormatInt 0 = "0".
Proof. reflexivity. Qed.

Example prettyPrintJSON_literal : prettyPrintJSON "  true " = "true".
Proof. reflexivity. Qed.

Example prettyPrintJSON_not_json : prettyPrintJSON "not json" = "not json".
Proof. reflexivity. Qed.

Example prettyPrintJSON_empty : prettyPrintJSON "" = "".
Proof. reflexivity. Qed.

(** The newest element of a three-element list, preloaded. *)
Example navigate_newest :
  lindexHandler defaultConfig mylistStore (lindexRequestNoIndex "mylist") =
    ([CallType "mylist"; CallLLen "mylist"; ResolveIndex "";
      CheckBounds 2 3; CallLRange "mylist" 0 (-1)],
     ResultWithPreload "mylist" 2 3 ["c"; "b"; "a"]).
Proof. vm_compute. reflexivity. Qed.

Example navigate_out_of_bounds :
  lindexHandler defaultConfig mylistStore (lindexRequest "mylist" "5") =
    ([CallType "mylist"; CallLLen "mylist"; ResolveIndex "5"; CheckBounds 5 3],
     NotFoundPage "Index 5 out of bounds (list length: 3)").
Proof. vm_compute. reflexivity. Qed.

Example navigate_missing_key :
  lindexHandler defaultConfig mylistStore (lindexRequest "missingkey" "0") =
    ([CallType "missingkey"], NotFoundPage "Key 'missingkey' does not exist").
Proof. vm_compute. reflexivity. Qed.

Example navigate_no_key :
  lindexHandler defaultConfig mylistStore (lindexRequest "" "0") =
    ([], NotFoundPage "Missing 'key' parameter").
Proof. vm_compute. reflexivity. Qed.

Example navigate_bad_index :
  lindexHandler defaultConfig mylistStore (lindexRequest "mylist" "abc") =
    ([CallType "mylist"; CallLLen "mylist"; ResolveIndex "abc"],
     NotFoundPage "Invalid 'index' parameter").
Proof. vm_compute. reflexivity. Qed.

(** With the threshold below the length, one element is fetched. *)
Example navigate_single_fetch :
  lindexHandler {| maxLists := 10; maxPreloadSize := 2 |} mylistStore
    (lindexRequest "mylist" "1") =
    ([CallType "mylist"; CallLLen "mylist"; ResolveIndex "1";
      CheckBounds 1 3; CallLIndex "mylist" 1],
     ResultWithoutPreload "mylist" 1 3 "b").
Proof. vm_compute. reflexivity. Qed.

(** At the threshold the list is preloaded. *)
Example navigate_at_threshold :
  lindexHandler {| maxLists := 10; maxPreloadSize := 3 |} mylistStore
    (lindexRequest "mylist" "1") =
    ([CallType "mylist"; CallLLen "mylist"; ResolveIndex "1";
      CheckBounds 1 3; CallLRange "mylist" 0 (-1)],
     ResultWithPreload "mylist" 1 3 ["c"; "b"; "a"]).
Proof. vm_compute. reflexivity. Qed.

Example legacy_navigate :
  Legacy.lindexHandler mylistStore (lindexRequest "mylist" "0") =
    ([ResolveIndex "0"; CallType "mylist"; CallLLen "mylist";
      CheckBounds 0 3; CallLIndex "mylist" 0],
     ResultWithoutPreload "mylist" 0 3 "c").
Proof. vm_compute. reflexivity. Qed.

(** Five lists in the keyspace, two wanted: the scan stops in the first
    batch. *)
Example discover_two_of_five :
  getAvailableLists twoListsConfig fiveListsScript =
    Some ([{| Name := "a"; Size := 1 |}; {| Name := "b"; Size := 2 |}], None).
Proof. reflexivity. Qed.

Example discover_all_five :
  getAvailableLists defaultConfig fiveListsScript =
    Some ([{| Name := "a"; Size := 1 |}; {| Name := "b"; Size := 2 |};
           {| Name := "c"; Size := 3 |}; {| Name := "d"; Size := 4 |};
           {| Name := "e"; Size := 5 |}], None).
Proof. reflexivity. Qed.

Example discover_page_after_failure :
  indexHandler defaultConfig failingScript indexRequest = Some (IndexPage []).
Proof. reflexivity. Qed.

Example legacy_discover_two_of_five :
  Legacy.getAvailableLists 2 fiveListsScript = Some (["a"; "b"], None).
Proof. reflexivity. Qed.

End Examples.

(** ** The statements at concrete inputs *)

Module Instances.

Import LiteralJSON.

(** The literal codec meets the contract assumed of [encoding/json]. *)
Lemma codec_roundTrips : roundTrips codec.
Proof.
  intros s v pretty _ Hm.
  destruct v as [| []]; simpl in Hm; injection Hm as <-; reflexivity.
Qed.

Lemma not_found_iff_out_of_range_at_5 :
  (is_not_found
     (snd (lindexHandler defaultConfig mylistStore (lindexRequest "mylist" "5")))
   = true <-> (5 < 0 \/ 5 >= 3)) /\
  (is_not_found
     (snd (Legacy.lindexHandler mylistStore (lindexRequest "mylist" "5")))
   = true <-> (5 < 0 \/ 5 >= 3)).
Proof.
  apply (lindexHandler_not_found_iff_out_of_range
           defaultConfig mylistStore (lindexRequest "mylist" "5") 3 5).
  - discriminate.
  - left. reflexivity.
  - reflexivity.
  - unfold maxInt64. lia.
  - reflexivity.
Defined.

Lemma strategy_at_mylist :
  issuesLRange
    (fst (lindexHandler defaultConfig mylistStore (lindexRequest "mylist" "1")))
    = (3 <=? maxPreloadSize defaultConfig) /\
  issuesLIndex
    (fst (lindexHandler defaultConfig mylistStore (lindexRequest "mylist" "1")))
    = (maxPreloadSize defaultConfig <? 3) /\
  (3 <= maxPreloadSize defaultConfig ->
     fst (lindexHandler defaultConfig mylistStore (lindexRequest "mylist" "1")) =
       (validationSteps "mylist" "1" 1 3 ++ [CallLRange "mylist" 0 (-1)])%list /\
     forall allValues, LRange mylistStore "mylist" 0 (-1) = Ok allValues ->
       snd (lindexHandler defaultConfig mylistStore (lindexRequest "mylist" "1")) =
         ResultWithPreload "mylist" 1 3 (map prettyPrintJSON allValues)) /\
  (3 > maxPreloadSize defaultConfig ->
     fst (lindexHandler defaultConfig mylistStore (lindexRequest "mylist" "1")) =
       (validationSteps "mylist" "1" 1 3 ++ [CallLIndex "mylist" 1])%list /\
     forall value, LIndex mylistStore "mylist" 1 = Ok value ->
       snd (lindexHandler defaultConfig mylistStore (lindexRequest "mylist" "1")) =
         ResultWithoutPreload "mylist" 1 3 (prettyPrintJSON value)).
Proof.
  apply (lindexHandler_strategy
           defaultConfig mylistStore (lindexRequest "mylist" "1")
           "mylist" "1" 3 1).
  - reflexivity.
  - reflexivity.
  - discriminate.
  - reflexivity.
  - reflexivity.
  - reflexivity.
  - lia.
Defined.

Lemma defaults_to_newest_at_mylist :
  resolved (Get (Query (lindexRequestNoIndex "mylist")) "index") 3 = Some (3 - 1) /\
  lindexHandler defaultConfig mylistStore (lindexRequestNoIndex "mylist") =
    (if 3 <=? maxPreloadSize defaultConfig
     then
       ((validationSteps "mylist" "" (3 - 1) 3
           ++ [CallLRange "mylist" 0 (-1)])%list,
        match LRange mylistStore "mylist" 0 (-1) with
        | Err err => ErrorPage ("Error getting list elements: " ++ err)
        | Ok allValues =>
            ResultWithPreload "mylist" (3 - 1) 3 (map prettyPrintJSON allValues)
        end)
     else
       ((validationSteps "mylist" "" (3 - 1) 3
           ++ [CallLIndex "mylist" (3 - 1)])%list,
        match LIndex mylistStore "mylist" (3 - 1) with
        | Err err => ErrorPage ("Error getting element: " ++ err)
        | Ok value =>
            ResultWithoutPreload "mylist" (3 - 1) 3 (prettyPrintJSON value)
        end)) /\
  Legacy.lindexHandler mylistStore (lindexRequestNoIndex "mylist") =
    ([ResolveIndex ""], NotFoundPage "Invalid 'index' parameter").
Proof.
  apply (lindexHandler_defaults_to_newest
           defaultConfig mylistStore (lindexRequestNoIndex "mylist") "mylist" 3).
  - reflexivity.
  - reflexivity.
  - discriminate.
  - reflexivity.
  - reflexivity.
  - unfold maxInt64. lia.
Defined.

(** C3, as stated, fails on the older handler: a request without index
    for a list of three elements is answered with the not-found page. *)
Lemma Legacy_lindexHandler_has_no_default :
  Type_ mylistStore "mylist" = Ok "list" /\
  LLen mylistStore "mylist" = Ok 3 /\
  Get (Query (lindexRequestNoIndex "mylist")) "index" = "" /\
  Legacy.lindexHandler mylistStore (lindexRequestNoIndex "mylist") =
    ([ResolveIndex ""], NotFoundPage "Invalid 'index' parameter").
Proof. repeat split. Qed.

(** C8, as stated, fails on the older handler: an index that does not
    parse is reported before the store has been asked for the type or the
    length of the key. *)
Lemma Legacy_lindexHandler_parses_first :
  Legacy.lindexHandler mylistStore (lindexRequest "mylist" "abc") =
    ([ResolveIndex "abc"], NotFoundPage "Invalid 'index' parameter") /\
  ~ In (CallType "mylist")
      (fst (Legacy.lindexHandler mylistStore (lindexRequest "mylist" "abc"))) /\
  ~ In (CallLLen "mylist")
      (fst (Legacy.lindexHandler mylistStore (lindexRequest "mylist" "abc"))) /\
  ~ (exists n,
       map kind_of
         (fst (Legacy.lindexHandler mylistStore (lindexRequest "mylist" "abc")))
       = firstn n specifiedOrder).
Proof.
  split; [reflexivity |].
  split; [| split].
  - simpl. intros [H | []]. discriminate H.
  - simpl. intros [H | []]. discriminate H.
  - intros [n H]. destruct n; discriminate H.
Qed.

Lemma at_most_maxLists_at_five_lists :
  (getAvailableLists twoListsConfig fiveListsScript
     = scanResult (maxLists twoListsConfig) (uncappedLists fiveListsScript) (scanEnd fiveListsScript) /\
   (forall pre rest,
      fiveListsScript = (pre ++ rest)%list ->
      maxLists twoListsConfig <= len (uncappedLists pre) ->
      getAvailableLists twoListsConfig fiveListsScript
        = Some (firstn (Z.to_nat (maxLists twoListsConfig)) (uncappedLists pre), None) /\
      len (firstn (Z.to_nat (maxLists twoListsConfig)) (uncappedLists pre)) = maxLists twoListsConfig) /\
   (scriptEnds fiveListsScript = true ->
      exists res, getAvailableLists twoListsConfig fiveListsScript = Some res) /\
   (forall lists err,
      getAvailableLists twoListsConfig fiveListsScript = Some (lists, err) ->
      len lists <= maxLists twoListsConfig /\
      (err = None ->
         lists = firstn (Z.to_nat (maxLists twoListsConfig)) (uncappedLists fiveListsScript)) /\
      Forall (fun li => observedList fiveListsScript (Name li)) lists)) /\
  (Legacy.getAvailableLists (maxLists twoListsConfig) fiveListsScript
     = scanResult (maxLists twoListsConfig) (legacyUncappedLists fiveListsScript) (scanEnd fiveListsScript) /\
   (forall pre rest,
      fiveListsScript = (pre ++ rest)%list ->
      maxLists twoListsConfig <= len (legacyUncappedLists pre) ->
      Legacy.getAvailableLists (maxLists twoListsConfig) fiveListsScript
        = Some (firstn (Z.to_nat (maxLists twoListsConfig)) (legacyUncappedLists pre), None) /\
      len (firstn (Z.to_nat (maxLists twoListsConfig)) (legacyUncappedLists pre))
        = maxLists twoListsConfig) /\
   (scriptEnds fiveListsScript = true ->
      exists res, Legacy.getAvailableLists (maxLists twoListsConfig) fiveListsScript = Some res) /\
   (forall lists err,
      Legacy.getAvailableLists (maxLists twoListsConfig) fiveListsScript = Some (lists, err) ->
      len lists <= maxLists twoListsConfig /\
      (err = None ->
         lists = firstn (Z.to_nat (maxLists twoListsConfig)) (legacyUncappedLists fiveListsScript)) /\
      Forall (legacyObservedList fiveListsScript) lists)).
Proof.
  apply (ScanFacts.getAvailableLists_at_most_maxLists
           twoListsConfig fiveListsScript).
  simpl. lia.
Defined.

Lemma round_trip_at_true :
  Unmarshal (prettyPrintJSON (json := codec) "  true ") = Ok (LBool true).
Proof.
  apply (prettyPrintJSON_round_trip (json := codec) "  true " (LBool true)).
  - exact codec_roundTrips.
  - reflexivity.
Defined.

Lemma invalid_unchanged_at_not_json :
  prettyPrintJSON "not json" = "not json".
Proof.
  apply (prettyPrintJSON_invalid_unchanged "not json"
           "invalid character looking for beginning of value").
  reflexivity.
Defined.

Lemma idempotent_at_false :
  prettyPrintJSON (prettyPrintJSON " false") = prettyPrintJSON " false".
Proof.
  apply (prettyPrintJSON_idempotent " false").
  exact codec_roundTrips.
Defined.

Lemma scan_failure_at_failingScript :
  getAvailableLists defaultConfig failingScript
    = Some ([], Some "connection reset by peer") /\
  indexHandler defaultConfig failingScript indexRequest = Some (IndexPage []) /\
  (len (legacyUncappedLists (firstn 1 failingScript)) < maxLists defaultConfig ->
   Legacy.getAvailableLists (maxLists defaultConfig) failingScript
     = Some ([], Some "connection reset by peer")).
Proof.
  apply (ScanFacts.getAvailableLists_scan_failure
           defaultConfig (firstn 1 failingScript)
           "connection reset by peer" [] indexRequest).
  - reflexivity.
  - reflexivity.
  - reflexivity.
Defined.

End Instances.

(** ** The further statements at concrete inputs *)

Module MoreInstances.

Import LiteralJSON.

Lemma mylistStore_consistent : consistentList mylistStore "mylist" ["c"; "b"; "a"].
Proof.
  repeat split.
  intros i Hi.
  assert (Hcases : i = 0 \/ i = 1 \/ i = 2) by (change (len ["c"; "b"; "a"]) with 3 in Hi; lia).
  destruct Hcases as [-> | [-> | ->]]; eexists; split; reflexivity.
Qed.

Lemma agrees_with_legacy_at_mylist :
  statusCode (snd (lindexHandler {| maxLists := 10; maxPreloadSize := 2 |} mylistStore (lindexRequest "mylist" "1")))
    = statusCode (snd (Legacy.lindexHandler mylistStore (lindexRequest "mylist" "1"))) /\
  pageMessage (snd (lindexHandler {| maxLists := 10; maxPreloadSize := 2 |} mylistStore (lindexRequest "mylist" "1")))
    = pageMessage (snd (Legacy.lindexHandler mylistStore (lindexRequest "mylist" "1"))) /\
  responseKey (snd (lindexHandler {| maxLists := 10; maxPreloadSize := 2 |} mylistStore (lindexRequest "mylist" "1")))
    = responseKey (snd (Legacy.lindexHandler mylistStore (lindexRequest "mylist" "1"))) /\
  responseIndex (snd (lindexHandler {| maxLists := 10; maxPreloadSize := 2 |} mylistStore (lindexRequest "mylist" "1")))
    = responseIndex (snd (Legacy.lindexHandler mylistStore (lindexRequest "mylist" "1"))) /\
  responseLLen (snd (lindexHandler {| maxLists := 10; maxPreloadSize := 2 |} mylistStore (lindexRequest "mylist" "1")))
    = responseLLen (snd (Legacy.lindexHandler mylistStore (lindexRequest "mylist" "1"))) /\
  displayedValue (snd (lindexHandler {| maxLists := 10; maxPreloadSize := 2 |} mylistStore (lindexRequest "mylist" "1")))
    = displayedValue (snd (Legacy.lindexHandler mylistStore (lindexRequest "mylist" "1"))) /\
  filter isStoreCall (fst (lindexHandler {| maxLists := 10; maxPreloadSize := 2 |} mylistStore (lindexRequest "mylist" "1")))
    = filter isStoreCall (fst (Legacy.lindexHandler mylistStore (lindexRequest "mylist" "1"))).
Proof.
  apply (lindexHandler_agrees_with_legacy
           {| maxLists := 10; maxPreloadSize := 2 |} mylistStore
           (lindexRequest "mylist" "1") 1).
  - reflexivity.
  - intros llen H. vm_compute in H. injection H as <-. simpl. lia.
Defined.

Lemma answer_independent_of_threshold_at_mylist :
  statusCode (snd (lindexHandler defaultConfig mylistStore
                     (lindexRequest "mylist" "1")))
    = statusCode (snd (lindexHandler {| maxLists := 10; maxPreloadSize := 2 |}
                         mylistStore (lindexRequest "mylist" "1"))) /\
  responseIndex (snd (lindexHandler defaultConfig mylistStore
                        (lindexRequest "mylist" "1")))
    = responseIndex (snd (lindexHandler {| maxLists := 10; maxPreloadSize := 2 |}
                            mylistStore (lindexRequest "mylist" "1"))) /\
  displayedValue (snd (lindexHandler defaultConfig mylistStore
                         (lindexRequest "mylist" "1")))
    = displayedValue (snd (lindexHandler {| maxLists := 10; maxPreloadSize := 2 |}
                             mylistStore (lindexRequest "mylist" "1"))).
Proof.
  apply (lindexHandler_answer_independent_of_threshold
           defaultConfig {| maxLists := 10; maxPreloadSize := 2 |} mylistStore
           (lindexRequest "mylist" "1") ["c"; "b"; "a"]).
  exact mylistStore_consistent.
Defined.

Lemma paging_without_preload_at_newest :
  exists r' v,
    navigateWithoutPreload "mylist" (MaxIndex (len ["c"; "b"; "a"])) 2 1 = Load r' /\
    nth_error ["c"; "b"; "a"] (Z.to_nat ((2 + 1) mod len ["c"; "b"; "a"])) = Some v /\
    statusCode (snd (lindexHandler defaultConfig mylistStore r')) = 200 /\
    responseIndex (snd (lindexHandler defaultConfig mylistStore r'))
      = Some ((2 + 1) mod len ["c"; "b"; "a"]) /\
    displayedValue (snd (lindexHandler defaultConfig mylistStore r'))
      = Some (prettyPrintJSON v).
Proof.
  apply (paging_without_preload_is_cyclic
           defaultConfig mylistStore "mylist" ["c"; "b"; "a"] 2 1).
  - reflexivity.
  - discriminate.
  - exact mylistStore_consistent.
  - vm_compute. split; [discriminate | reflexivity].
  - vm_compute. discriminate.
  - left. reflexivity.
Defined.


Lemma legacy_paging_at_middle :
  (legacyKeydown "mylist" (MaxIndex (len ["c"; "b"; "a"])) 1 "ArrowLeft" = Stay
     <-> 1 = 0) /\
  (legacyKeydown "mylist" (MaxIndex (len ["c"; "b"; "a"])) 1 "ArrowRight" = Stay
     <-> 1 = len ["c"; "b"; "a"] - 1) /\
  match legacyKeydown "mylist" (MaxIndex (len ["c"; "b"; "a"])) 1 "Right" with
  | Load r' =>
      exists n,
        (n = 1 - 1 \/ n = 1 + 1) /\ 0 <= n < len ["c"; "b"; "a"] /\
        r' = lindexRequest "mylist" (strconv.FormatInt n) /\
        statusCode (snd (Legacy.lindexHandler mylistStore r')) = 200 /\
        responseIndex (snd (Legacy.lindexHandler mylistStore r')) = Some n
  | Stay => True
  | Update _ _ _ => False
  end.
Proof.
  apply (legacy_paging_stays_in_list
           mylistStore "mylist" ["c"; "b"; "a"] 1 "Right").
  - reflexivity.
  - discriminate.
  - exact mylistStore_consistent.
  - vm_compute. split; [discriminate | reflexivity].
  - vm_compute. discriminate.
Defined.

Lemma browse_stays_on_list_at_three_keys :
  match browse "mylist" 2 ["c"; "b"; "a"] 1 ["ArrowRight"; "Right"; "x"; "Left"] with
  | inl index => 0 <= index <= 2
  | inr r => r = lindexRequestNoIndex "mylist"
  end.
Proof.
  apply (PagingFacts.browse_stays_on_list "mylist" 2 ["c"; "b"; "a"]
           ["ArrowRight"; "Right"; "x"; "Left"] 1).
  lia.
Defined.

Lemma browse_closed_form_at_four_presses :
  browse "mylist" 2 ["c"; "b"; "a"] 1 (repeat "ArrowRight" 4)
    = inl ((1 + Z.of_nat 4) mod (2 + 1)) /\
  browse "mylist" 2 ["c"; "b"; "a"] 1 (repeat "ArrowLeft" 4)
    = if Z.of_nat 4 <=? 1 then inl (1 - Z.of_nat 4)
      else inr (lindexRequestNoIndex "mylist").
Proof.
  apply (PagingFacts.browse_closed_form "mylist" 2 ["c"; "b"; "a"] 4 1).
  lia.
Defined.

Lemma returns_at_first_stop_at_five_lists :
  getAvailableLists defaultConfig (firstn 1 fiveListsScript) = None /\
  (forall err rest,
     getAvailableLists defaultConfig ((firstn 1 fiveListsScript) ++ ScanErr err :: rest) = Some ([], Some err)) /\
  (forall b rest,
     cursor b = 0 \/ maxLists defaultConfig <= len (uncappedLists (firstn 1 fiveListsScript) ++ batchLists b) ->
     getAvailableLists defaultConfig ((firstn 1 fiveListsScript) ++ ScanOk b :: rest)
       = Some (firstn (Z.to_nat (maxLists defaultConfig))
                 (uncappedLists (firstn 1 fiveListsScript) ++ batchLists b), None)) /\
  (forall b,
     cursor b <> 0 ->
     len (uncappedLists (firstn 1 fiveListsScript) ++ batchLists b) < maxLists defaultConfig ->
     getAvailableLists defaultConfig ((firstn 1 fiveListsScript) ++ [ScanOk b]) = None).
Proof.
  apply (ScanProperties.getAvailableLists_returns_at_first_stop
           defaultConfig (firstn 1 fiveListsScript)).
  - reflexivity.
  - vm_compute. reflexivity.
Defined.

Lemma misses_no_list_at_five_lists :
  (None : option error) = None /\
  forall b k size,
    In (ScanOk b) fiveListsScript ->
    typeExecErr b = None -> llenExecErr b = None ->
    In k (keys b) ->
    typeResult k = Ok "list" -> llenResult k = Ok size ->
    In {| Name := keyName k; Size := size |}
       [{| Name := "a"; Size := 1 |}; {| Name := "b"; Size := 2 |};
        {| Name := "c"; Size := 3 |}; {| Name := "d"; Size := 4 |};
        {| Name := "e"; Size := 5 |}].
Proof.
  apply (ScanProperties.getAvailableLists_misses_no_list
           defaultConfig fiveListsScript).
  - reflexivity.
  - reflexivity.
  - vm_compute. reflexivity.
Defined.

Lemma monotone_at_five_lists :
  [{| Name := "a"; Size := 1 |}; {| Name := "b"; Size := 2 |}]
    = firstn (Z.to_nat (maxLists twoListsConfig))
        [{| Name := "a"; Size := 1 |}; {| Name := "b"; Size := 2 |};
         {| Name := "c"; Size := 3 |}; {| Name := "d"; Size := 4 |};
         {| Name := "e"; Size := 5 |}].
Proof.
  apply (ScanProperties.getAvailableLists_monotone
           twoListsConfig defaultConfig fiveListsScript).
  - simpl. lia.
  - reflexivity.
  - reflexivity.
Defined.

Lemma skips_failed_batch_at_five_lists :
  getAvailableLists defaultConfig
    (firstn 1 fiveListsScript ++ ScanOk failedBatch :: skipn 1 fiveListsScript)
    = getAvailableLists defaultConfig
        (firstn 1 fiveListsScript ++ skipn 1 fiveListsScript).
Proof.
  apply (ScanProperties.getAvailableLists_skips_failed_batch
           defaultConfig (firstn 1 fiveListsScript) failedBatch
           (skipn 1 fiveListsScript)).
  - left. discriminate.
  - discriminate.
Defined.

Lemma sizes_are_replies_at_five_lists :
  Forall (sizedList fiveListsScript)
    [{| Name := "a"; Size := 1 |}; {| Name := "b"; Size := 2 |}].
Proof.
  apply (ScanProperties.getAvailableLists_sizes_are_replies
           twoListsConfig fiveListsScript
           [{| Name := "a"; Size := 1 |}; {| Name := "b"; Size := 2 |}] None).
  - simpl. lia.
  - reflexivity.
Defined.

Lemma always_serves_at_sampleEnv :
  (Path indexRequest = "/" ->
     exists lists,
       indexHandler (configure sampleEnv) fiveListsScript indexRequest
         = Some (IndexPage lists) /\
       len lists <= maxLists (configure sampleEnv)) /\
  (Path indexRequest <> "/" ->
     indexHandler (configure sampleEnv) [] indexRequest = Some HttpNotFound /\
     indexHandler (configure sampleEnv) fiveListsScript indexRequest
       = Some HttpNotFound).
Proof.
  apply (ConfigFacts.indexHandler_always_serves
           sampleEnv fiveListsScript indexRequest).
  reflexivity.
Defined.

End MoreInstances.

(** ** The added definitions at work *)

Module MoreExamples.

Import LiteralJSON.

(** The cap is reached in the first batch: the failed [SCAN] that follows
    is never issued. *)
Example discover_returns_before_failure :
  getAvailableLists twoListsConfig
    (firstn 1 fiveListsScript ++ [ScanErr "connection reset by peer"])%list
    = Some ([{| Name := "a"; Size := 1 |}; {| Name := "b"; Size := 2 |}], None).
Proof. reflexivity. Qed.

Example discover_still_running :
  getAvailableLists defaultConfig (firstn 1 fiveListsScript) = None.
Proof. reflexivity. Qed.

Example validUTF8_ascii : validUTF8 "mylist" = true.
Proof. reflexivity. Qed.

Example validUTF8_two_bytes :
  validUTF8 (String (ascii_of_nat 195) (String (ascii_of_nat 169) "")) = true.
Proof. reflexivity. Qed.

Example validUTF8_stray_byte : validUTF8 (String (ascii_of_nat 255) "") = false.
Proof. reflexivity. Qed.

Example validUTF8_overlong :
  validUTF8 (String (ascii_of_nat 192) (String (ascii_of_nat 128) "")) = false.
Proof. reflexivity. Qed.

Example validUTF8_surrogate :
  validUTF8 (String (ascii_of_nat 237)
               (String (ascii_of_nat 160) (String (ascii_of_nat 128) "")))
    = false.
Proof. reflexivity. Qed.

Example validUTF8_truncated :
  validUTF8 (String (ascii_of_nat 226) (String (ascii_of_nat 130) "")) = false.
Proof. reflexivity. Qed.

Example prettyPrintJSONWith_panics :
  prettyPrintJSONWith panickingUnmarshal
    (fun v prefix indent => Returned (marshalIndent v prefix indent)) ""
    = ([CallUnmarshal ""], Panicked "unexpected end of JSON input").
Proof. reflexivity. Qed.

Example prettyPrintJSONWith_formats :
  prettyPrintJSONWith panickingUnmarshal
    (fun v prefix indent => Returned (marshalIndent v prefix indent)) " null "
    = ([CallUnmarshal " null "; CallMarshalIndent LNull "" "  "], Returned "null").
Proof. reflexivity. Qed.

Example prettyPrintJSONWith_absorbs_error :
  prettyPrintJSONWith panickingUnmarshal
    (fun v prefix indent => Returned (marshalIndent v prefix indent)) "not json"
    = ([CallUnmarshal "not json"], Returned "not json").
Proof. reflexivity. Qed.

End MoreExamples.
